(** * CTHRU CLI: query translation and result rendering

    A shallow embedding of [cthru.py]: the SoQL query builder
    ([build_query] and the reduced builders of [cmd_settlements] and
    [cmd_revenue]), the table and CSV renderers ([format_table],
    [format_csv]) and the writer ([output_results]), followed by the
    properties of the specification that concern them.

    Python values are modelled as they are at run time: a [str] is a
    sequence of Unicode code points, a [dict] keeps its insertion
    order, an [argparse.Namespace] is a dictionary of attributes that
    [hasattr] may find absent, and an attribute access on a missing
    attribute raises. *)

From Stdlib Require Import String Ascii.
From Stdlib Require Import List ZArith NArith Bool Lia.
From Stdlib Require Import SpecFloat.
From Stdlib Require Decimal DecimalPos.
Import ListNotations.

Set Implicit Arguments.

(** ** Python strings *)

Module Str.

(** One element per code point, which is what [len], slicing and
    the [re] module count. *)
Definition char := N.
Definition str := list char.

(** Source literals are written [lit "..."]; they are all ASCII. *)
Definition lit (s : string) : str :=
  List.map N_of_ascii (list_ascii_of_string s).

Fixpoint eqb (a b : str) : bool :=
  match a, b with
  | [], [] => true
  | x :: a', y :: b' => N.eqb x y && eqb a' b'
  | _, _ => false
  end.

(** [c in s] for a one-character [c]. *)
Definition contains (c : char) (s : str) : bool :=
  existsb (N.eqb c) s.

(** [sep.join(xs)] *)
Fixpoint join (sep : str) (xs : list str) : str :=
  match xs with
  | [] => []
  | [x] => x
  | x :: rest => x ++ sep ++ join sep rest
  end.

(** [s[:n]] for [n >= 0] *)
Definition prefix (n : nat) (s : str) : str := firstn n s.

(** [s.ljust(w)]: pads with spaces on the right up to [w]; a longer
    string is returned as it is. *)
Definition ljust (w : nat) (s : str) : str :=
  s ++ repeat 32%N (w - length s).

(** [c * n] for a one-character [c] *)
Definition times (c : char) (n : nat) : str := repeat c n.

(** [s.lstrip(c)], [s.rstrip(c)], [s.strip(c)] for a one-character [c] *)
Fixpoint lstrip (c : char) (s : str) : str :=
  match s with
  | [] => []
  | x :: s' => if N.eqb x c then lstrip c s' else s
  end.

Definition rstrip (c : char) (s : str) : str :=
  rev (lstrip c (rev s)).

Definition strip (c : char) (s : str) : str :=
  rstrip c (lstrip c s).

(** [s.replace(c, by)] for a one-character [c] *)
Definition replace (c : char) (by_ : str) (s : str) : str :=
  flat_map (fun x => if N.eqb x c then by_ else [x]) s.

(** [str(n)] of a Python [int] *)
Fixpoint of_uint (d : Decimal.uint) : str :=
  match d with
  | Decimal.Nil => []
  | Decimal.D0 d => 48%N :: of_uint d
  | Decimal.D1 d => 49%N :: of_uint d
  | Decimal.D2 d => 50%N :: of_uint d
  | Decimal.D3 d => 51%N :: of_uint d
  | Decimal.D4 d => 52%N :: of_uint d
  | Decimal.D5 d => 53%N :: of_uint d
  | Decimal.D6 d => 54%N :: of_uint d
  | Decimal.D7 d => 55%N :: of_uint d
  | Decimal.D8 d => 56%N :: of_uint d
  | Decimal.D9 d => 57%N :: of_uint d
  end.

Definition of_int (z : Z) : str :=
  match z with
  | Z0 => [48%N]
  | Zpos p => of_uint (Pos.to_uint p)
  | Zneg p => 45%N :: of_uint (Pos.to_uint p)
  end.

End Str.

Export Str(char, str, lit).
Arguments lit s%_string : simpl never.

(** ** Dictionaries

    A Python [dict] iterates in insertion order, and assigning to a
    key that is already there keeps its place. *)

Module Dict.

Definition dict (V : Type) := list (str * V).

Fixpoint get {V} (d : dict V) (k : str) : option V :=
  match d with
  | [] => None
  | (k', v) :: d' => if Str.eqb k' k then Some v else get d' k
  end.

Definition has {V} (d : dict V) (k : str) : bool :=
  match get d k with Some _ => true | None => false end.

Fixpoint set {V} (d : dict V) (k : str) (v : V) : dict V :=
  match d with
  | [] => [(k, v)]
  | (k', v') :: d' =>
      if Str.eqb k' k then (k', v) :: d' else (k', v') :: set d' k v
  end.

Definition keys {V} (d : dict V) : list str := List.map fst d.

(** [d.get(k, default)] *)
Definition get_default {V} (d : dict V) (k : str) (default : V) : V :=
  match get d k with Some v => v | None => default end.

End Dict.

Export Dict(dict).

(** ** Run-time values *)

#[local] Set Warnings "-register-all".

Inductive pyval : Type :=
| PyNone
| PyBool (b : bool)
| PyInt (z : Z)
| PyFloat (f : spec_float)
| PyStr (s : str)
| PyList (l : list pyval)
| PyDict (d : list (str * pyval)).

(** Truth value of an object in a condition. *)
Definition truthy (v : pyval) : bool :=
  match v with
  | PyNone => false
  | PyBool b => b
  | PyInt z => negb (Z.eqb z 0)
  | PyFloat f => match f with S754_zero _ => false | _ => true end
  | PyStr s => match s with [] => false | _ => true end
  | PyList l => match l with [] => false | _ => true end
  | PyDict d => match d with [] => false | _ => true end
  end.

Definition is_not_none (v : pyval) : bool :=
  match v with PyNone => false | _ => true end.

(** Exceptions that the modelled code can raise.  [OSError] stands
    for a file that cannot be opened or written, whatever the kind
    ([FileNotFoundError] for a missing directory, [PermissionError],
    ...), with the path that was refused. *)
Inductive pyexn : Type :=
| AttributeError (attr : str)
| KeyError (key : str)
| TypeError
| OSError (path : str)
| UnicodeDecodeError
| UnicodeEncodeError.

Inductive result (A : Type) : Type :=
| Ok (a : A)
| Raise (e : pyexn).
Arguments Ok {A} a.
Arguments Raise {A} e.

Definition bind {A B} (m : result A) (k : A -> result B) : result B :=
  match m with
  | Ok a => k a
  | Raise e => Raise e
  end.

Declare Scope py_scope.
Delimit Scope py_scope with py.
Notation "x <- m ;; k" := (bind m (fun x => k))
  (at level 61, m at next level, right associativity) : py_scope.
Open Scope py_scope.

(** ** argparse namespaces *)

Definition Namespace := dict pyval.

(** [args.attr] *)
Definition getattr (args : Namespace) (attr : str) : result pyval :=
  match Dict.get args attr with
  | Some v => Ok v
  | None => Raise (AttributeError attr)
  end.

(** [hasattr(args, attr)] *)
Definition hasattr (args : Namespace) (attr : str) : bool :=
  Dict.has args attr.

(** ** Parsed command lines

    What [main]'s parser accepts, one variant per sub-command, each
    with the options its sub-parser declares.  [--limit] and
    [--offset] are [type=int], [--min-amount] and [--max-amount] are
    [type=float], [--year] is a string for [spending] and [type=int]
    for [payroll]; an option that was not given is [None].  The
    attribute [func], which only [main] reads, is left out. *)

Inductive OutputFormat : Type := Table | Json | Csv.

Record CommonArgs : Type := {
  limit : Z;
  offset : option Z;
  format : OutputFormat;
  output : option str;
  search : option str;
  sort : option str;
  url : bool;
  save_json : bool
}.

Record SpendingArgs : Type := {
  sp_common : CommonArgs;
  sp_year : option str;
  sp_dept : option str;
  sp_vendor : option str;
  sp_fund : option str;
  sp_min_amount : option spec_float;
  sp_max_amount : option spec_float
}.

Record PayrollArgs : Type := {
  pr_common : CommonArgs;
  pr_year : option Z;
  pr_dept : option str;
  pr_name : option str;
  pr_min_amount : option spec_float;
  pr_max_amount : option spec_float
}.

Inductive Command : Type :=
| Spending (a : SpendingArgs)
| Payroll (a : PayrollArgs)
| Settlements (a : CommonArgs)
| Revenue (a : CommonArgs).

Definition common_of (c : Command) : CommonArgs :=
  match c with
  | Spending a => sp_common a
  | Payroll a => pr_common a
  | Settlements a => a
  | Revenue a => a
  end.

Definition command_name (c : Command) : str :=
  match c with
  | Spending _ => lit "spending"
  | Payroll _ => lit "payroll"
  | Settlements _ => lit "settlements"
  | Revenue _ => lit "revenue"
  end.

Definition format_name (f : OutputFormat) : str :=
  match f with
  | Table => lit "table"
  | Json => lit "json"
  | Csv => lit "csv"
  end.

Definition opt {A} (inj : A -> pyval) (o : option A) : pyval :=
  match o with
  | Some a => inj a
  | None => PyNone
  end.

(** The attributes that [add_common_args] and [dest="command"] give
    every data command. *)
Definition common_attrs (command : str) (c : CommonArgs) : Namespace :=
  [ (lit "command", PyStr command);
    (lit "limit", PyInt (limit c));
    (lit "offset", opt PyInt (offset c));
    (lit "format", PyStr (format_name (format c)));
    (lit "output", opt PyStr (output c));
    (lit "search", opt PyStr (search c));
    (lit "sort", opt PyStr (sort c));
    (lit "url", PyBool (url c));
    (lit "save_json", PyBool (save_json c)) ].

(** The namespace [parser.parse_args()] hands to the command. *)
Definition namespace_of (c : Command) : Namespace :=
  match c with
  | Spending a =>
      common_attrs (lit "spending") (sp_common a) ++
      [ (lit "year", opt PyStr (sp_year a));
        (lit "dept", opt PyStr (sp_dept a));
        (lit "vendor", opt PyStr (sp_vendor a));
        (lit "fund", opt PyStr (sp_fund a));
        (lit "min_amount", opt PyFloat (sp_min_amount a));
        (lit "max_amount", opt PyFloat (sp_max_amount a)) ]
  | Payroll a =>
      common_attrs (lit "payroll") (pr_common a) ++
      [ (lit "year", opt PyInt (pr_year a));
        (lit "dept", opt PyStr (pr_dept a));
        (lit "name", opt PyStr (pr_name a));
        (lit "min_amount", opt PyFloat (pr_min_amount a));
        (lit "max_amount", opt PyFloat (pr_max_amount a)) ]
  | Settlements a => common_attrs (lit "settlements") a
  | Revenue a => common_attrs (lit "revenue") a
  end.

(** ** The query builder *)

Section QueryBuilder.

(** [repr] of a float and of a container are Python built-ins; the
    query builder and the renderers only embed their result. *)
Variable float_repr : spec_float -> str.
Variable container_repr : pyval -> str.

(** [str(v)], which is also what an f-string field [{v}] inserts. *)
Definition py_str (v : pyval) : str :=
  match v with
  | PyNone => lit "None"
  | PyBool true => lit "True"
  | PyBool false => lit "False"
  | PyInt z => Str.of_int z
  | PyFloat f => float_repr f
  | PyStr s => s
  | PyList _ | PyDict _ => container_repr v
  end.

(** [hasattr(args, attr) and args.attr], as a condition *)
Definition has_truthy (args : Namespace) (attr : str) : bool :=
  hasattr args attr &&
  match getattr args attr with
  | Ok v => truthy v
  | Raise _ => false
  end.

(** [hasattr(args, attr) and args.attr is not None] *)
Definition has_not_none (args : Namespace) (attr : str) : bool :=
  hasattr args attr &&
  match getattr args attr with
  | Ok v => is_not_none v
  | Raise _ => false
  end.

(** [upper(field) like upper('%value%')] *)
Definition like_clause (field : str) (value : pyval) : str :=
  lit "upper(" ++ field ++ lit ") like upper('%" ++ py_str value ++ lit "%')".

(** The list [where_clauses] as it stands before it is combined. *)
Definition build_where (args : Namespace) (dataset_key : str)
  : result (list str) :=
  let where_clauses := [] in
  (* Year filter *)
  year <- getattr args (lit "year") ;;
  let where_clauses :=
    if truthy year then
      if Str.eqb dataset_key (lit "spending") then
        where_clauses ++
          [lit "budget_fiscal_year = '" ++ py_str year ++ lit "'"]
      else if Str.eqb dataset_key (lit "payroll") then
        where_clauses ++ [lit "year = " ++ py_str year]
      else where_clauses
    else where_clauses in
  (* Department filter *)
  dept <- getattr args (lit "dept") ;;
  let where_clauses :=
    if truthy dept then
      if Str.eqb dataset_key (lit "spending") then
        where_clauses ++ [like_clause (lit "department") dept]
      else if Str.eqb dataset_key (lit "payroll") then
        where_clauses ++ [like_clause (lit "department_division") dept]
      else where_clauses
    else where_clauses in
  (* Vendor filter (spending only) *)
  where_clauses <-
    (if has_truthy args (lit "vendor") then
       vendor <- getattr args (lit "vendor") ;;
       Ok (where_clauses ++ [like_clause (lit "vendor") vendor])
     else Ok where_clauses) ;;
  (* Fund filter (spending only) *)
  where_clauses <-
    (if has_truthy args (lit "fund") then
       fund <- getattr args (lit "fund") ;;
       Ok (where_clauses ++ [like_clause (lit "fund") fund])
     else Ok where_clauses) ;;
  (* Amount filters *)
  where_clauses <-
    (if has_not_none args (lit "min_amount") then
       min_amount <- getattr args (lit "min_amount") ;;
       if Str.eqb dataset_key (lit "spending") then
         Ok (where_clauses ++ [lit "amount >= " ++ py_str min_amount])
       else if Str.eqb dataset_key (lit "payroll") then
         Ok (where_clauses ++
               [lit "pay_total_actual >= " ++ py_str min_amount])
       else Ok where_clauses
     else Ok where_clauses) ;;
  where_clauses <-
    (if has_not_none args (lit "max_amount") then
       max_amount <- getattr args (lit "max_amount") ;;
       if Str.eqb dataset_key (lit "spending") then
         Ok (where_clauses ++ [lit "amount <= " ++ py_str max_amount])
       else if Str.eqb dataset_key (lit "payroll") then
         Ok (where_clauses ++
               [lit "pay_total_actual <= " ++ py_str max_amount])
       else Ok where_clauses
     else Ok where_clauses) ;;
  (* Name filter (payroll only) *)
  where_clauses <-
    (if has_truthy args (lit "name") then
       name <- getattr args (lit "name") ;;
       Ok (where_clauses ++
             [lit "(" ++ like_clause (lit "name_first") name ++ lit " OR " ++
              like_clause (lit "name_last") name ++ lit ")"])
     else Ok where_clauses) ;;
  (* Search filter (generic text search) *)
  search <- getattr args (lit "search") ;;
  let where_clauses :=
    if truthy search then
      if Str.eqb dataset_key (lit "spending") then
        where_clauses ++
          [lit "(" ++ like_clause (lit "vendor") search ++ lit " OR " ++
           like_clause (lit "department") search ++ lit ")"]
      else if Str.eqb dataset_key (lit "payroll") then
        where_clauses ++
          [lit "(" ++ like_clause (lit "name_first") search ++ lit " OR " ++
           like_clause (lit "name_last") search ++ lit " OR " ++
           like_clause (lit "department_division") search ++ lit ")"]
      else where_clauses
    else where_clauses in
  Ok where_clauses.

(** Limit and offset, the first statements of [build_query] and of
    the reduced builders. *)
Definition limit_offset (args : Namespace) : result (dict str) :=
  let params := [] in
  limit <- getattr args (lit "limit") ;;
  let params := Dict.set params (lit "$limit") (py_str limit) in
  offset <- getattr args (lit "offset") ;;
  let params :=
    if truthy offset then Dict.set params (lit "$offset") (py_str offset)
    else params in
  Ok params.

(** [build_query]: limit and offset, the clauses, [$where] when
    there is one, [$order].  [args.sort] and [args.search] are
    strings whenever they are truthy, so [str] leaves them as they
    are. *)
Definition build_query (args : Namespace) (dataset_key : str)
  : result (dict str) :=
  params <- limit_offset args ;;
  where_clauses <- build_where args dataset_key ;;
  (* Combine where clauses *)
  let params :=
    match where_clauses with
    | [] => params
    | _ =>
        Dict.set params (lit "$where")
                 (Str.join (lit " AND ") where_clauses)
    end in
  (* Order by *)
  sort <- getattr args (lit "sort") ;;
  let params :=
    if truthy sort then Dict.set params (lit "$order") (py_str sort)
    else params in
  Ok params.

(** The parameters built by [cmd_settlements] and [cmd_revenue]. *)
Definition reduced_query (args : Namespace) : result (dict str) :=
  params <- limit_offset args ;;
  search <- getattr args (lit "search") ;;
  let params :=
    if truthy search then Dict.set params (lit "$q") (py_str search)
    else params in
  Ok params.

(** The [params] each command passes to [fetch_data]. *)
Definition command_params (c : Command) : result (dict str) :=
  match c with
  | Spending _ => build_query (namespace_of c) (lit "spending")
  | Payroll _ => build_query (namespace_of c) (lit "payroll")
  | Settlements _ | Revenue _ => reduced_query (namespace_of c)
  end.

End QueryBuilder.

(** ** The predicate clause, as the specification words it

    Section 4.1: which filters there are, in which order their
    clauses are joined, and which clause an active filter stands
    for on each dataset.  A filter is active when its option was
    given a value the builder does not take for absent: a non-empty
    string, a non-zero payroll year, any amount. *)

Inductive Filter : Type :=
| ByYear | ByDepartment | ByVendor | ByFund
| ByMinAmount | ByMaxAmount | ByName | BySearch.

Definition filter_order : list Filter :=
  [ByYear; ByDepartment; ByVendor; ByFund;
   ByMinAmount; ByMaxAmount; ByName; BySearch].

Definition nonempty (o : option str) : option str :=
  match o with
  | Some ((_ :: _) as s) => Some s
  | _ => None
  end.

Definition nonzero (o : option Z) : option Z :=
  match o with
  | Some z => if Z.eqb z 0 then None else Some z
  | None => None
  end.

(** Case-insensitive substring match: upper-case both sides. *)
Definition contains_pred (field value : str) : str :=
  lit "upper(" ++ field ++ lit ") like upper('%" ++ value ++ lit "%')".

(** A parenthesised disjunction. *)
Definition any_of (preds : list str) : str :=
  lit "(" ++ Str.join (lit " OR ") preds ++ lit ")".

Section PredicateClauses.

Variable float_repr : spec_float -> str.

Definition spending_clause (a : SpendingArgs) (f : Filter) : option str :=
  match f with
  | ByYear =>
      option_map (fun v => lit "budget_fiscal_year = '" ++ v ++ lit "'")
                 (nonempty (sp_year a))
  | ByDepartment =>
      option_map (contains_pred (lit "department")) (nonempty (sp_dept a))
  | ByVendor =>
      option_map (contains_pred (lit "vendor")) (nonempty (sp_vendor a))
  | ByFund =>
      option_map (contains_pred (lit "fund")) (nonempty (sp_fund a))
  | ByMinAmount =>
      option_map (fun x => lit "amount >= " ++ float_repr x) (sp_min_amount a)
  | ByMaxAmount =>
      option_map (fun x => lit "amount <= " ++ float_repr x) (sp_max_amount a)
  | ByName => None
  | BySearch =>
      option_map (fun v => any_of [contains_pred (lit "vendor") v;
                                   contains_pred (lit "department") v])
                 (nonempty (search (sp_common a)))
  end.

Definition payroll_clause (a : PayrollArgs) (f : Filter) : option str :=
  match f with
  | ByYear =>
      option_map (fun y => lit "year = " ++ Str.of_int y) (nonzero (pr_year a))
  | ByDepartment =>
      option_map (contains_pred (lit "department_division"))
                 (nonempty (pr_dept a))
  | ByVendor | ByFund => None
  | ByMinAmount =>
      option_map (fun x => lit "pay_total_actual >= " ++ float_repr x)
                 (pr_min_amount a)
  | ByMaxAmount =>
      option_map (fun x => lit "pay_total_actual <= " ++ float_repr x)
                 (pr_max_amount a)
  | ByName =>
      option_map (fun v => any_of [contains_pred (lit "name_first") v;
                                   contains_pred (lit "name_last") v])
                 (nonempty (pr_name a))
  | BySearch =>
      option_map (fun v => any_of [contains_pred (lit "name_first") v;
                                   contains_pred (lit "name_last") v;
                                   contains_pred (lit "department_division") v])
                 (nonempty (search (pr_common a)))
  end.

(** The clause a filter produces for a command, if any; the reduced
    builders of settlements and revenue produce none. *)
Definition clause_of (c : Command) (f : Filter) : option str :=
  match c with
  | Spending a => spending_clause a f
  | Payroll a => payroll_clause a f
  | Settlements _ | Revenue _ => None
  end.

Definition active (c : Command) (f : Filter) : bool :=
  match clause_of c f with Some _ => true | None => false end.

Definition option_list {A} (o : option A) : list A :=
  match o with Some a => [a] | None => [] end.

(** One clause per active filter, in the fixed order. *)
Definition predicate_clauses (c : Command) : list str :=
  flat_map (fun f => option_list (clause_of c f)) filter_order.

End PredicateClauses.

(** ** Result rendering *)

(** A record of the response: a JSON object, its keys in the order of
    the response. *)
Definition Row := dict pyval.

(** [d[k]] *)
Definition getitem {V} (d : dict V) (k : str) : result V :=
  match Dict.get d k with
  | Some v => Ok v
  | None => Raise (KeyError k)
  end.

Fixpoint mapM {A B} (f : A -> result B) (l : list A) : result (list B) :=
  match l with
  | [] => Ok []
  | a :: l' => b <- f a ;; bs <- mapM f l' ;; Ok (b :: bs)
  end.

Section Renderer.

Variable float_repr : spec_float -> str.
Variable container_repr : pyval -> str.

#[local] Abbreviation py_str := (py_str float_repr container_repr).

(** [str(row.get(col, default))], the default being the empty string *)
Definition cell_text (row : Row) (col : str) : str :=
  py_str (Dict.get_default row col (PyStr [])).

(** *** Table *)

(** Columns to show. *)
Definition table_columns (first : Row) (columns : option (list str))
  : list str :=
  match columns with
  | Some ((_ :: _) as columns) =>
      filter (fun c => Dict.has first c) columns
  | _ => firstn 8 (Dict.keys first)  (* Limit to 8 columns for readability *)
  end.

(** The inner loop of the width computation and the final cap. *)
Definition column_width (data : list Row) (col : str) : nat :=
  let max_len := length col in
  let max_len :=
    fold_left
      (fun max_len row =>
         (* Truncate long values *)
         let val := Str.prefix 40 (cell_text row col) in
         Nat.max max_len (length val))
      (firstn 50 data)  (* Sample first 50 rows *)
      max_len in
  Nat.min max_len 40.

Definition compute_widths (data : list Row) (cols : list str) : dict nat :=
  fold_left (fun widths col => Dict.set widths col (column_width data col))
            cols [].

Definition header_cells (widths : dict nat) (cols : list str)
  : result (list str) :=
  mapM (fun col =>
          w <- getitem widths col ;;
          Ok (Str.prefix w (Str.ljust w col)))
       cols.

Definition separator_cells (widths : dict nat) (cols : list str)
  : result (list str) :=
  mapM (fun col => w <- getitem widths col ;; Ok (Str.times 45%N w)) cols.

Definition row_cells (widths : dict nat) (cols : list str) (row : Row)
  : result (list str) :=
  mapM (fun col =>
          w <- getitem widths col ;;
          let val := Str.prefix w (cell_text row col) in
          Ok (Str.ljust w val))
       cols.

Definition format_table (data : list Row) (columns : option (list str))
  : result str :=
  match data with
  | [] => Ok (lit "No results found.")
  | first :: _ =>
      let cols := table_columns first columns in
      let widths := compute_widths data cols in
      header <- header_cells widths cols ;;
      separator <- separator_cells widths cols ;;
      let lines := [Str.join (lit " | ") header;
                    Str.join (lit "-+-") separator] in
      rows <- mapM (fun row =>
                      cells <- row_cells widths cols row ;;
                      Ok (Str.join (lit " | ") cells))
                   data ;;
      Ok (Str.join [10%N] (lines ++ rows))
  end.

(** *** CSV *)

(** One value of a data line: quotes doubled, then the whole
    enclosed in quotes when it holds a comma, a quote or a newline. *)
Definition csv_value (text : str) : str :=
  let val := Str.replace 34%N [34%N; 34%N] text in
  if Str.contains 44%N val || Str.contains 34%N val || Str.contains 10%N val
  then [34%N] ++ val ++ [34%N]
  else val.

Definition csv_line (cols : list str) (row : Row) : str :=
  Str.join (lit ",") (List.map (fun col => csv_value (cell_text row col)) cols).

Definition format_csv (data : list Row) : str :=
  match data with
  | [] => []
  | first :: _ =>
      let cols := Dict.keys first in
      let output := [Str.join (lit ",") cols] in
      let output :=
        fold_left (fun output row => output ++ [csv_line cols row])
                  data output in
      Str.join [10%N] output
  end.

End Renderer.

(** ** The writer *)

(** What a run does to the outside: texts printed to standard output,
    one per call of [print], and whole-file writes
    ([Path(...).write_text]) that went through. *)
Inductive event : Type :=
| Printed (text : str)
| FileWritten (path : str) (content : str).

(** Effects are recorded in the order they happen; an exception stops
    the run and keeps what was done before it. *)
Definition IO (A : Type) : Type := list event -> list event * result A.

Definition ret {A} (a : A) : IO A := fun tr => (tr, Ok a).

Definition seq {A B} (m : IO A) (k : A -> IO B) : IO B :=
  fun tr =>
    match m tr with
    | (tr', Ok a) => k a tr'
    | (tr', Raise e) => (tr', Raise e)
    end.

Definition lift {A} (r : result A) : IO A := fun tr => (tr, r).

Definition emit (e : event) : IO unit := fun tr => (tr ++ [e], Ok tt).

(** [print(text)]; standard output is taken to accept every text. *)
Definition print (text : str) : IO unit := emit (Printed text).

(** How [Path(path).write_text(content)] can fail: the file cannot
    be opened or written, or the content cannot be encoded. *)
Inductive write_failure : Type :=
| Refused
| NotEncodable.

Definition write_exn (path : str) (failure : write_failure) : pyexn :=
  match failure with
  | Refused => OSError path
  | NotEncodable => UnicodeEncodeError
  end.

(** [Path(path).write_text(content)].  Whether a write goes through
    is not the program's to decide: [file_system] says it, for the
    path and the content.  A write that fails raises and is not
    recorded; what it leaves behind (nothing, or a file cut short) is
    not modelled. *)
Definition write_text (file_system : str -> str -> option write_failure)
           (path content : str) : IO unit :=
  fun tr =>
    match file_system path content with
    | None => (tr ++ [FileWritten path content], Ok tt)
    | Some failure => (tr, Raise (write_exn path failure))
    end.

Declare Scope io_scope.
Delimit Scope io_scope with io.
Notation "x <-- m ;; k" := (seq m (fun x => k))
  (at level 61, m at next level, right associativity) : io_scope.
Notation "m ;;; k" := (seq m (fun _ => k))
  (at level 61, right associativity) : io_scope.
Open Scope io_scope.

(** The events of a whole run, started with nothing done. *)
Definition run {A} (m : IO A) : list event * result A := m [].

(** A value where the code needs a [str] ([re.sub], [Path]). *)
Definition as_str (v : pyval) : result str :=
  match v with
  | PyStr s => Ok s
  | _ => Raise TypeError
  end.

(** [v == s] for a string literal [s] *)
Definition eq_str (v : pyval) (s : str) : bool :=
  match v with
  | PyStr s' => Str.eqb s' s
  | _ => false
  end.

Section Sanitize.

(** [str.isalnum] outside ASCII, from the Unicode database. *)
Variable unicode_alnum : char -> bool.

(** [\w] of the [re] module on a [str] pattern: alphanumeric or
    underscore. *)
Definition is_word (c : char) : bool :=
  if N.ltb c 128 then
    (N.leb 48 c && N.leb c 57) || (N.leb 65 c && N.leb c 90) ||
    (N.leb 97 c && N.leb c 122) || N.eqb c 95
  else unicode_alnum c.

(** [re.sub(r'[^\w]', '_', s)] *)
Definition sub_nonword (s : str) : str :=
  List.map (fun c => if is_word c then c else 95%N) s.

(** [re.sub(r'[^\w]', '_', s)[:20].strip('_')], the expression that
    cleans each filter value for the snapshot file name. *)
Definition sanitize (s : str) : str :=
  Str.strip 95%N (Str.prefix 20 (sub_nonword s)).

End Sanitize.

Section Writer.

Variable float_repr : spec_float -> str.
Variable container_repr : pyval -> str.
Variable unicode_alnum : char -> bool.

(** [json.dumps(v, indent=2)] and [urllib.parse.urlencode]. *)
Variable json_dumps : pyval -> str.
Variable urlencode : dict str -> str.

(** The two readings of the clock in the snapshot branch:
    [datetime.now().strftime("%Y%m%d_%H%M%S")] and
    [datetime.now().isoformat()]. *)
Variable now_strftime : str.
Variable now_isoformat : str.

(** What the file system makes of each write. *)
Variable file_system : str -> str -> option write_failure.

#[local] Abbreviation py_str := (py_str float_repr container_repr).
#[local] Abbreviation sanitize := (sanitize unicode_alnum).

(** [len(data)] inside an f-string *)
Definition len_str {A} (l : list A) : str := Str.of_int (Z.of_nat (length l)).

Definition json_of_data (data : list Row) : pyval :=
  PyList (List.map PyDict data).

(** [{k: v for k, v in params.items() if k != "$limit"}] *)
Definition without_limit (params : dict str) : dict str :=
  filter (fun kv => negb (Str.eqb (fst kv) (lit "$limit"))) params.

(** One [if hasattr(args, attr) and args.attr: parts.append(clean)]
    of the file-name construction. *)
Definition append_clean (args : Namespace) (attr : str) (parts : list str)
  : result (list str) :=
  if has_truthy args attr then
    v <- getattr args attr ;;
    s <- as_str v ;;
    Ok (parts ++ [sanitize s])
  else Ok parts.

(** The name of the snapshot file. *)
Definition snapshot_name (args : Namespace) : result str :=
  command <- getattr args (lit "command") ;;
  command <- as_str command ;;
  let parts := [command] in
  parts <-
    (if has_truthy args (lit "year") then
       year <- getattr args (lit "year") ;;
       Ok (parts ++ [lit "fy" ++ py_str year])
     else Ok parts) ;;
  parts <- append_clean args (lit "vendor") parts ;;
  parts <- append_clean args (lit "fund") parts ;;
  parts <- append_clean args (lit "dept") parts ;;
  parts <- append_clean args (lit "name") parts ;;
  parts <- append_clean args (lit "search") parts ;;
  let timestamp := now_strftime in
  let parts := parts ++ [timestamp] in
  Ok (Str.join (lit "_") parts ++ lit ".json").

(** The metadata wrapper written to the snapshot file. *)
Definition wrapped_data (data : list Row) (dataset_id : pyval)
           (params : option (dict str)) : pyval :=
  let api_url :=
    lit "https://cthru.data.socrata.com/resource/" ++ py_str dataset_id ++
    lit ".json" in
  let api_url :=
    match params with
    | Some ((_ :: _) as params) =>
        match without_limit params with
        | [] => api_url
        | url_params => api_url ++ lit "?" ++ urlencode url_params
        end
    | _ => api_url
    end in
  let portal_url :=
    if truthy dataset_id then
      PyStr (lit "https://cthru.data.socrata.com/d/" ++ py_str dataset_id)
    else PyNone in
  PyDict [ (lit "api_url", PyStr api_url);
           (lit "portal_url", portal_url);
           (lit "query_timestamp", PyStr now_isoformat);
           (lit "record_count", PyInt (Z.of_nat (length data)));
           (lit "data", json_of_data data) ].

Definition output_results (data : list Row) (args : Namespace)
           (default_columns : option (list str)) (url : pyval)
           (dataset_id : pyval) (params : option (dict str)) : IO unit :=
  match data with
  | [] => print (lit "No results found.")
  | _ :: _ =>
      (* Handle --save-json flag: save JSON and display table *)
      (if has_truthy args (lit "save_json") then
         json_file <-- lift (snapshot_name args) ;;
         write_text file_system json_file
                    (json_dumps (wrapped_data data dataset_id params)) ;;;
         print (lit "JSON saved to " ++ json_file)
       else ret tt) ;;;
      format <-- lift (getattr args (lit "format")) ;;
      output <-- lift
        (if eq_str format (lit "json") then Ok (json_dumps (json_of_data data))
         else if eq_str format (lit "csv") then
           Ok (format_csv float_repr container_repr data)
         else (* table *)
           format_table float_repr container_repr data default_columns) ;;
      out <-- lift (getattr args (lit "output")) ;;
      (if truthy out then
         path <-- lift (as_str out) ;;
         write_text file_system path output ;;;
         print (lit "Results saved to " ++ py_str out ++ lit " (" ++
                len_str data ++ lit " records)")
       else
         print output ;;;
         print ([10%N] ++ lit "--- " ++ len_str data ++ lit " records ---")) ;;;
      (* Show URL if requested *)
      if has_truthy args (lit "url") && truthy url then
        print ([10%N] ++ lit "View in browser: " ++ py_str url)
      else ret tt
  end.

(** [generate_socrata_url] *)
Definition generate_socrata_url (dataset_id : str) (params : dict str)
  : str :=
  let api_url :=
    lit "https://cthru.data.socrata.com/resource/" ++ dataset_id ++
    lit ".json" in
  let api_url :=
    match params with
    | [] => api_url
    | _ :: _ =>
        match without_limit params with
        | [] => api_url
        | url_params => api_url ++ lit "?" ++ urlencode url_params
        end
    end in
  let portal_url := lit "https://cthru.data.socrata.com/d/" ++ dataset_id in
  api_url ++ [10%N] ++ lit "               Portal: " ++ portal_url.

(** *** The commands

    [cmd_spending], [cmd_payroll], [cmd_settlements] and
    [cmd_revenue] after the credentials are loaded; [fetched] is
    what [fetch_data] returned for the parameters built. *)

Definition dataset_id_of (c : Command) : str :=
  match c with
  | Spending _ => lit "pegc-naaa"
  | Payroll _ => lit "9ttk-7vz6"
  | Settlements _ => lit "gpqz-7ppn"
  | Revenue _ => lit "kcy7-ivxi"
  end.

Definition default_cols_of (c : Command) : option (list str) :=
  match c with
  | Spending _ =>
      Some [lit "vendor"; lit "department"; lit "amount"; lit "date";
            lit "budget_fiscal_year"; lit "object_class"]
  | Payroll _ =>
      Some [lit "name_first"; lit "name_last"; lit "department_division";
            lit "position_title"; lit "pay_total_actual"; lit "year"]
  | Settlements _ | Revenue _ => None
  end.

Definition run_command (c : Command) (fetched : list Row) : IO unit :=
  let args := namespace_of c in
  params <-- lift (command_params float_repr container_repr c) ;;
  match c with
  | Spending _ | Payroll _ =>
      let dataset_id := dataset_id_of c in
      let url :=
        if has_truthy args (lit "url")
        then PyStr (generate_socrata_url dataset_id params)
        else PyNone in
      output_results fetched args (default_cols_of c) url
                     (PyStr dataset_id) (Some params)
  | Settlements _ | Revenue _ =>
      output_results fetched args None PyNone PyNone None
  end.

End Writer.

(** ** The remote parameters, as the specification words them

    Section 4.1 again: [$limit] always, [$offset] when one is in
    force, then for the structured builders [$where] when a filter
    produced a clause and [$order] when a sort was given, for the
    reduced builders [$q] when a search text was given. *)

Section RemoteParams.

Variable float_repr : spec_float -> str.

Definition where_param (c : Command) : option str :=
  match predicate_clauses float_repr c with
  | [] => None
  | cs => Some (Str.join (lit " AND ") cs)
  end.

Definition offset_param (c : Command) : option str :=
  option_map Str.of_int (nonzero (offset (common_of c))).

Definition entry (key : str) (value : option str) : dict str :=
  option_list (option_map (pair key) value).

Definition remote_params (c : Command) : dict str :=
  [(lit "$limit", Str.of_int (limit (common_of c)))] ++
  entry (lit "$offset") (offset_param c) ++
  match c with
  | Spending _ | Payroll _ =>
      entry (lit "$where") (where_param c) ++
      entry (lit "$order") (nonempty (sort (common_of c)))
  | Settlements _ | Revenue _ =>
      entry (lit "$q") (nonempty (search (common_of c)))
  end.

(** A string that is [str(n)] for some positive integer [n]. *)
Definition is_positive_decimal (s : str) : Prop :=
  exists n : Z, (0 < n)%Z /\ s = Str.of_int n.

End RemoteParams.

(** The scenario of section 8: [spending --vendor "W. B MASON"
    --year 2024 --limit 50]. *)
Definition no_common (n : Z) : CommonArgs :=
  {| limit := n; offset := None; format := Table; output := None;
     search := None; sort := None; url := false; save_json := false |}.

Definition mason_2024 : Command :=
  Spending {| sp_common := no_common 50;
              sp_year := Some (lit "2024");
              sp_dept := None;
              sp_vendor := Some (lit "W. B MASON");
              sp_fund := None;
              sp_min_amount := None;
              sp_max_amount := None |}.

(** What the scenario says the clause is, and what the fixed order of
    section 4.1 makes it. *)
Definition mason_2024_vendor_first : str :=
  lit "upper(vendor) like upper('%W. B MASON%')" ++ lit " AND " ++
  lit "budget_fiscal_year = '2024'".

Definition mason_2024_year_first : str :=
  lit "budget_fiscal_year = '2024'" ++ lit " AND " ++
  lit "upper(vendor) like upper('%W. B MASON%')".

(** ** Reference notions for the renderers *)

Section RendererSpec.

Variable float_repr : spec_float -> str.
Variable container_repr : pyval -> str.

(** Section 4.3: the width of a column is the largest of the header
    length and the lengths of the sampled values, each cut to 40
    characters, capped at 40. *)
Definition sampled_lengths (data : list Row) (col : str) : list nat :=
  List.map
    (fun row =>
       length (Str.prefix 40 (cell_text float_repr container_repr row col)))
    (firstn 50 data).

Definition spec_width (data : list Row) (col : str) : nat :=
  Nat.min 40 (Nat.max (length col) (list_max (sampled_lengths data col))).

(** A value cut to a width and padded to it. *)
Definition fit (w : nat) (text : str) : str :=
  Str.ljust w (Str.prefix w text).

(** The cells of the data lines of a table, one list per record. *)
Definition table_cells (data : list Row) (cols : list str)
  : list (list str) :=
  List.map (fun row =>
              List.map (fun col => fit (spec_width data col)
                                       (cell_text float_repr container_repr
                                                  row col)) cols)
           data.

End RendererSpec.

(** A value that the CSV rule encloses in quotes. *)
Definition needs_quotes (text : str) : bool :=
  Str.contains 44%N text || Str.contains 34%N text || Str.contains 10%N text.

(** *** Reading a CSV field back

    The reader of Python's [csv] module in its default dialect
    (delimiter comma, quote character the double quote, doubled
    quotes inside a quoted field), which is RFC 4180 on well-formed
    input: the automaton that reads one field off the front of the
    input, returning the field and the input left, which starts at
    the delimiter or line break that ended the field. *)

Inductive csv_state : Type :=
| StartField
| InField
| InQuotedField
| QuoteInQuotedField.

Definition ends_field (c : char) : bool :=
  N.eqb c 44 || N.eqb c 10 || N.eqb c 13.

Fixpoint read_field (st : csv_state) (field input : str) : str * str :=
  match input with
  | [] => (field, [])
  | c :: rest =>
      match st with
      | StartField =>
          if N.eqb c 34 then read_field InQuotedField field rest
          else if ends_field c then (field, input)
          else read_field InField (field ++ [c]) rest
      | InField =>
          if ends_field c then (field, input)
          else read_field InField (field ++ [c]) rest
      | InQuotedField =>
          if N.eqb c 34 then read_field QuoteInQuotedField field rest
          else read_field InQuotedField (field ++ [c]) rest
      | QuoteInQuotedField =>
          if N.eqb c 34 then read_field InQuotedField (field ++ [34%N]) rest
          else if ends_field c then (field, input)
          else read_field InField (field ++ [c]) rest
      end
  end.

Definition parse_field (input : str) : str * str :=
  read_field StartField [] input.

(** What may follow a field in a line. *)
Definition at_field_end (input : str) : bool :=
  match input with
  | [] => true
  | c :: _ => ends_field c
  end.

(** A table whose only column is narrower than [None]: fifty rows
    with [id] = [1], then one with [id] null. *)
Definition narrow_table : list Row :=
  repeat [(lit "id", PyStr (lit "1"))] 50 ++ [[(lit "id", PyNone)]].

(** *** Reading a CSV line back

    The same reader taken over a whole record: fields are split at
    the commas outside quotes, and the record ends with the input or
    at a line break outside quotes.  An empty line is a record with
    no field. *)

Definition ends_record (c : char) : bool := N.eqb c 10 || N.eqb c 13.

Fixpoint read_record (st : csv_state) (field : str) (fields : list str)
         (input : str) : list str * str :=
  match input with
  | [] => (fields ++ [field], [])
  | c :: rest =>
      match st with
      | StartField =>
          if N.eqb c 34 then read_record InQuotedField field fields rest
          else if N.eqb c 44 then
            read_record StartField [] (fields ++ [field]) rest
          else if ends_record c then (fields ++ [field], input)
          else read_record InField (field ++ [c]) fields rest
      | InField =>
          if N.eqb c 44 then
            read_record StartField [] (fields ++ [field]) rest
          else if ends_record c then (fields ++ [field], input)
          else read_record InField (field ++ [c]) fields rest
      | InQuotedField =>
          if N.eqb c 34 then read_record QuoteInQuotedField field fields rest
          else read_record InQuotedField (field ++ [c]) fields rest
      | QuoteInQuotedField =>
          if N.eqb c 34 then
            read_record InQuotedField (field ++ [34%N]) fields rest
          else if N.eqb c 44 then
            read_record StartField [] (fields ++ [field]) rest
          else if ends_record c then (fields ++ [field], input)
          else read_record InField (field ++ [c]) fields rest
      end
  end.

Definition parse_record (input : str) : list str * str :=
  match input with
  | [] => ([], [])
  | c :: _ =>
      if ends_record c then ([], input)
      else read_record StartField [] [] input
  end.

(** A value that a CSV line carries safely: it is enclosed in quotes,
    or it holds no carriage return. *)
Definition csv_safe (text : str) : bool :=
  needs_quotes text || negb (Str.contains 13%N text).

(** What follows a value in a line: nothing, or a comma and the rest
    of the line. *)
Definition after_value (fields : list str) (tail : str) : list str * str :=
  match tail with
  | [] => (fields, [])
  | _ :: more => read_record StartField [] fields more
  end.

(** ** The writer's effects, laid out

    What a run on a non-empty result set does, in order: the snapshot
    and its notice when one was asked for, then the rendered text to
    the output file with a notice or to standard output with the
    record count, then the URL line. *)

Section WriterSpec.

Variable float_repr : spec_float -> str.
Variable container_repr : pyval -> str.
Variable unicode_alnum : char -> bool.
Variable json_dumps : pyval -> str.
Variable urlencode : dict str -> str.
Variable now_strftime : str.
Variable now_isoformat : str.
Variable file_system : str -> str -> option write_failure.

(** The year as it enters the snapshot name. *)
Definition year_part (c : Command) : list str :=
  match c with
  | Spending a =>
      option_list (option_map (fun y => lit "fy" ++ y) (nonempty (sp_year a)))
  | Payroll a =>
      option_list (option_map (fun y => lit "fy" ++ Str.of_int y)
                              (nonzero (pr_year a)))
  | Settlements _ | Revenue _ => []
  end.

(** The values that are cleaned for the name, in the order the code
    takes them: vendor, fund, department, name, search. *)
Definition cleaned_values (c : Command) : list (option str) :=
  match c with
  | Spending a =>
      [sp_vendor a; sp_fund a; sp_dept a; None; search (sp_common a)]
  | Payroll a =>
      [None; None; pr_dept a; pr_name a; search (pr_common a)]
  | Settlements a | Revenue a => [None; None; None; None; search a]
  end.

Definition snapshot_parts (c : Command) : list str :=
  [command_name c] ++ year_part c ++
  flat_map (fun o => option_list (option_map (sanitize unicode_alnum)
                                             (nonempty o)))
           (cleaned_values c) ++
  [now_strftime].

Definition snapshot_file (c : Command) : str :=
  Str.join (lit "_") (snapshot_parts c) ++ lit ".json".

(** The API address without [$limit], as both [generate_socrata_url]
    and the snapshot build it. *)
Definition api_url_of (dataset_id : str) (params : dict str) : str :=
  lit "https://cthru.data.socrata.com/resource/" ++ dataset_id ++
  lit ".json" ++
  match without_limit params with
  | [] => []
  | url_params => lit "?" ++ urlencode url_params
  end.

(** What each command passes to [output_results] besides the data. *)
Definition snapshot_wrapper (c : Command) (data : list Row) : pyval :=
  match c with
  | Spending _ | Payroll _ =>
      wrapped_data float_repr container_repr urlencode now_isoformat data
                   (PyStr (dataset_id_of c))
                   (Some (remote_params float_repr c))
  | Settlements _ | Revenue _ =>
      wrapped_data float_repr container_repr urlencode now_isoformat data
                   PyNone None
  end.

(** The text of the snapshot. *)
Definition snapshot_text (c : Command) (data : list Row) : str :=
  json_dumps (snapshot_wrapper c data).

Definition snapshot_events (c : Command) (data : list Row) : list event :=
  if save_json (common_of c) then
    [ FileWritten (snapshot_file c) (snapshot_text c data);
      Printed (lit "JSON saved to " ++ snapshot_file c) ]
  else [].

(** The rendered text of a result set in the format asked for. *)
Definition rendered (c : Command) (data : list Row) : result str :=
  match format (common_of c) with
  | Json => Ok (json_dumps (json_of_data data))
  | Csv => Ok (format_csv float_repr container_repr data)
  | Table => format_table float_repr container_repr data (default_cols_of c)
  end.

Definition output_events (c : Command) (data : list Row) (text : str)
  : list event :=
  match nonempty (output (common_of c)) with
  | Some path =>
      [ FileWritten path text;
        Printed (lit "Results saved to " ++ path ++ lit " (" ++
                 len_str data ++ lit " records)") ]
  | None =>
      [ Printed text;
        Printed ([10%N] ++ lit "--- " ++ len_str data ++ lit " records ---") ]
  end.

Definition url_events (c : Command) : list event :=
  match c with
  | Spending _ | Payroll _ =>
      if url (common_of c) then
        [ Printed ([10%N] ++ lit "View in browser: " ++
                   generate_socrata_url urlencode (dataset_id_of c)
                                        (remote_params float_repr c)) ]
      else []
  | Settlements _ | Revenue _ => []
  end.


(** What becomes of the snapshot write: [None] when none was asked
    for or it went through. *)
Definition snapshot_failure (c : Command) (data : list Row)
  : option write_failure :=
  if save_json (common_of c) then
    file_system (snapshot_file c) (snapshot_text c data)
  else None.

(** The whole run on a non-empty result set whose rendered text is
    [text]: a write that fails ends it, with what was done before. *)
Definition expected_run (c : Command) (data : list Row) (text : str)
  : list event * result unit :=
  match snapshot_failure c data with
  | Some failure => ([], Raise (write_exn (snapshot_file c) failure))
  | None =>
      match nonempty (output (common_of c)) with
      | Some path =>
          match file_system path text with
          | None =>
              (snapshot_events c data ++ output_events c data text ++
               url_events c, Ok tt)
          | Some failure =>
              (snapshot_events c data, Raise (write_exn path failure))
          end
      | None =>
          (snapshot_events c data ++ output_events c data text ++
           url_events c, Ok tt)
      end
  end.

End WriterSpec.



Definition set_url (flag : bool) (a : CommonArgs) : CommonArgs :=
  {| limit := limit a; offset := offset a; format := format a;
     output := output a; search := search a; sort := sort a; url := flag;
     save_json := save_json a |}.

(** ** Credentials

    [load_credentials] on what the file [cthru_api] beside the script
    is: missing, unreadable, or a text. *)

Section Credentials.

(** [str.isspace] outside ASCII, from the Unicode database. *)
Variable unicode_space : char -> bool.

(** White space as [str.strip()] sees it: in ASCII the characters 9
    to 13 and 28 to 32. *)
Definition is_space (c : char) : bool :=
  if N.ltb c 128 then
    (N.leb 9 c && N.leb c 13) || (N.leb 28 c && N.leb c 32)
  else unicode_space c.

Fixpoint lstrip_ws (s : str) : str :=
  match s with
  | [] => []
  | x :: s' => if is_space x then lstrip_ws s' else s
  end.

(** [s.strip()] *)
Definition strip_ws (s : str) : str :=
  rev (lstrip_ws (rev (lstrip_ws s))).

(** [s.split(sep)] for a one-character [sep] *)
Fixpoint split (sep : char) (s : str) : list str :=
  match s with
  | [] => [[]]
  | x :: s' =>
      if N.eqb x sep then [] :: split sep s'
      else match split sep s' with
           | [] => [[x]]
           | piece :: pieces => (x :: piece) :: pieces
           end
  end.

(** [s.startswith(prefix)] *)
Fixpoint startswith (prefix s : str) : bool :=
  match prefix, s with
  | [], _ => true
  | p :: prefix', x :: s' => N.eqb p x && startswith prefix' s'
  | _ :: _, [] => false
  end.

(** [s.split(sep, 1)[1]]: what follows the first [sep]; without a
    [sep] the index is out of range. *)
Fixpoint after_first (sep : char) (s : str) : option str :=
  match s with
  | [] => None
  | x :: s' => if N.eqb x sep then Some s' else after_first sep s'
  end.

Inductive token_file : Type :=
| NoFile
| Unreadable
| FileText (content : str).

(** The loop over the lines; an exception ends it and is swallowed,
    leaving what was read so far. *)
Fixpoint scan_lines (lines : list str) (app_token secret : option str)
  : option str * option str :=
  match lines with
  | [] => (app_token, secret)
  | line :: lines' =>
      if startswith (lit "ID:") line then
        match after_first 58%N line with
        | Some value => scan_lines lines' (Some (strip_ws value)) secret
        | None => (app_token, secret)
        end
      else if startswith (lit "secret:") line then
        match after_first 58%N line with
        | Some value => scan_lines lines' app_token (Some (strip_ws value))
        | None => (app_token, secret)
        end
      else scan_lines lines' app_token secret
  end.

Definition load_credentials (file : token_file) : option str * option str :=
  match file with
  | NoFile => (None, None)
  | Unreadable => (None, None)
  | FileText content => scan_lines (split 10%N (strip_ws content)) None None
  end.

(** What the lines of a file can leave behind: nothing, or a value
    without white space at either end and without a line break. *)
Definition tidy (o : option str) : Prop :=
  match o with
  | None => True
  | Some value => strip_ws value = value /\ Str.contains 10%N value = false
  end.

End Credentials.

(** ** Transport: the request and an error reply *)

Section Transport.

Variable float_repr : spec_float -> str.
Variable container_repr : pyval -> str.
Variable urlencode : dict str -> str.

(** [base64.b64encode(s.encode()).decode()] *)
Variable b64encode : str -> str.

(** [json.loads]; [None] when it raises [JSONDecodeError]. *)
Variable json_loads : str -> option pyval.



(** The headers [fetch_data] sends. *)
Definition request_headers (app_token secret : option str) : dict str :=
  let headers := [(lit "Accept", lit "application/json")] in
  (* Use HTTP Basic Auth if we have both app_token and secret *)
  if truthy (opt PyStr app_token) && truthy (opt PyStr secret) then
    let credentials :=
      py_str float_repr container_repr (opt PyStr app_token) ++ lit ":" ++
      py_str float_repr container_repr (opt PyStr secret) in
    let encoded := b64encode credentials in
    Dict.set headers (lit "Authorization") (lit "Basic " ++ encoded)
  else if truthy (opt PyStr app_token) then
    Dict.set headers (lit "X-App-Token")
             (py_str float_repr container_repr (opt PyStr app_token))
  else headers.

(** The bytes [read()] hands to [decode()]: either they are not
    UTF-8, and [decode()] raises [UnicodeDecodeError], or they are the
    encoding of a text. *)
Inductive body_bytes : Type :=
| NotUtf8
| Utf8 (text : str).

(** [read().decode()] *)
Definition decode (bytes : body_bytes) : result str :=
  match bytes with
  | NotUtf8 => Raise UnicodeDecodeError
  | Utf8 text => Ok text
  end.

(** What [urlopen] comes back with: a response with the bytes of its
    body, an [HTTPError] with its code, reason and the bytes of its
    body (none when [e.fp] is not set), or a [URLError]. *)
Inductive http_reply : Type :=
| Reply (body : body_bytes)
| HTTPError (code : Z) (reason : str) (body : option body_bytes)
| URLError (reason : str).

(** How [fetch_data] ends: with the decoded data, by [sys.exit], or
    with an exception nobody catches. *)
Inductive fetch_end : Type :=
| Fetched (data : pyval)
| Exit (status : Z)
| JSONDecodeError
| Uncaught (e : pyexn).

(** The texts given to [print] on standard error, one per call and in
    order, and the end of [fetch_data]. *)
Definition fetch_reply (reply : http_reply) : list str * fetch_end :=
  match reply with
  | Reply body =>
      match decode body with
      | Raise e => ([], Uncaught e)
      | Ok text =>
          match json_loads text with
          | Some data => ([], Fetched data)
          | None => ([], JSONDecodeError)
          end
      end
  | HTTPError code reason body =>
      match
        match body with
        | Some bytes => decode bytes
        | None => Ok []
        end
      with
      | Raise e => ([], Uncaught e)
      | Ok error_body =>
          let err :=
            [lit "Error: HTTP " ++ Str.of_int code ++ lit " - " ++ reason] in
          match error_body with
          | [] => (err, Exit 1)
          | _ :: _ =>
              match json_loads error_body with
              | Some (PyDict error_json) =>
                  (err ++
                   [lit "  " ++
                    py_str float_repr container_repr
                      (Dict.get_default error_json (lit "message")
                                        (PyStr error_body))],
                   Exit 1)
              | Some _ => (err, Uncaught (AttributeError (lit "get")))
              | None =>
                  (err ++ [lit "  " ++ Str.prefix 200 error_body], Exit 1)
              end
          end
      end
  | URLError reason =>
      ([lit "Error: Connection failed - " ++ reason], Exit 1)
  end.

End Transport.

(** * Properties *)

(** ** Strings and dictionaries *)

Lemma any_of2 p q :
  any_of [p; q] = lit "(" ++ p ++ lit " OR " ++ q ++ lit ")".
Proof. unfold any_of; cbn [Str.join]. now rewrite <- !app_assoc. Qed.

Lemma any_of3 p q r :
  any_of [p; q; r] =
  lit "(" ++ p ++ lit " OR " ++ q ++ lit " OR " ++ r ++ lit ")".
Proof. unfold any_of; cbn [Str.join]. now rewrite <- !app_assoc. Qed.

Lemma of_uint_inj d d' : Str.of_uint d = Str.of_uint d' -> d = d'.
Proof.
  revert d'; induction d; destruct d'; cbn; intros H;
    try discriminate; try reflexivity;
    injection H as H; f_equal; auto.
Qed.

Lemma of_uint_no_sign d rest : Str.of_uint d <> 45%N :: rest.
Proof. destruct d; cbn; congruence. Qed.

(** [str] of an integer determines the integer. *)
Lemma of_int_inj z z' : Str.of_int z = Str.of_int z' -> z = z'.
Proof.
  assert (Hzero : forall p, Str.of_uint (Pos.to_uint p) <> [48%N]).
  { intros p H. apply (DecimalPos.Unsigned.to_uint_nonzero p).
    apply of_uint_inj. exact H. }
  destruct z as [|p|p], z' as [|q|q]; cbn [Str.of_int]; intros H;
    try reflexivity;
    try (symmetry in H; now apply Hzero in H);
    try (now apply Hzero in H);
    try discriminate H;
    try (now apply of_uint_no_sign in H);
    try (symmetry in H; now apply of_uint_no_sign in H).
  - apply of_uint_inj, DecimalPos.Unsigned.to_uint_inj in H. now subst.
  - injection H as H.
    apply of_uint_inj, DecimalPos.Unsigned.to_uint_inj in H. now subst.
Qed.

Lemma positive_decimal_iff z :
  is_positive_decimal (Str.of_int z) <-> (0 < z)%Z.
Proof.
  split.
  - intros (n & Hn & E). apply of_int_inj in E. now subst.
  - intros H. now exists z.
Qed.

(** ** The query builder *)

Section QueryBuilderFacts.

Variable fr : spec_float -> str.
Variable cr : pyval -> str.

(** The builder's list of clauses is the specification's, on both
    structured datasets. *)
Lemma build_where_spending a :
  build_where fr cr (namespace_of (Spending a)) (lit "spending") =
  Ok (predicate_clauses fr (Spending a)).
Proof.
  destruct a as [[l o fm out s so u sj] y d v f mn mx].
  unfold predicate_clauses, clause_of, spending_clause, filter_order,
    flat_map.
  destruct y as [[|? ?]|], d as [[|? ?]|], v as [[|? ?]|],
    f as [[|? ?]|], s as [[|? ?]|], mn, mx;
    cbn [option_map nonempty sp_common search sp_year sp_dept sp_vendor
           sp_fund sp_min_amount sp_max_amount];
    rewrite ?any_of2; reflexivity.
Qed.

Lemma build_where_payroll a :
  build_where fr cr (namespace_of (Payroll a)) (lit "payroll") =
  Ok (predicate_clauses fr (Payroll a)).
Proof.
  destruct a as [[l o fm out s so u sj] y d n mn mx].
  unfold predicate_clauses, clause_of, payroll_clause, filter_order,
    flat_map.
  destruct y as [[|?|?]|], d as [[|? ?]|], n as [[|? ?]|],
    s as [[|? ?]|], mn, mx;
    cbn [option_map nonempty nonzero Z.eqb pr_common search pr_year pr_dept
           pr_name pr_min_amount pr_max_amount];
    rewrite ?any_of2, ?any_of3; reflexivity.
Qed.

Lemma limit_offset_command c :
  limit_offset fr cr (namespace_of c) =
  Ok ([(lit "$limit", Str.of_int (limit (common_of c)))] ++
      entry (lit "$offset") (offset_param c)).
Proof.
  destruct c as [[[l o fm out s so u sj] ? ? ? ? ? ?]
                |[[l o fm out s so u sj] ? ? ? ? ?]
                |[l o fm out s so u sj]|[l o fm out s so u sj]];
    destruct o as [[|?|?]|]; reflexivity.
Qed.

(** Every parsed command gets its parameters, and they are the
    ones of section 4.1. *)
Lemma command_params_spec c :
  command_params fr cr c = Ok (remote_params fr c).
Proof.
  unfold command_params, build_query, reduced_query.
  destruct c as [a|a|a|a]; rewrite limit_offset_command;
    rewrite ?build_where_spending, ?build_where_payroll;
    unfold remote_params, where_param, offset_param, entry; cbn [bind].
  - generalize (predicate_clauses fr (Spending a)); intros cs.
    destruct a as [[l o fm out s so u sj] ? ? ? ? ? ?].
    cbn [common_of sp_common offset limit sort].
    destruct cs, (nonzero o), so as [[|? ?]|]; reflexivity.
  - generalize (predicate_clauses fr (Payroll a)); intros cs.
    destruct a as [[l o fm out s so u sj] ? ? ? ? ?].
    cbn [common_of pr_common offset limit sort].
    destruct cs, (nonzero o), so as [[|? ?]|]; reflexivity.
  - destruct a as [l o fm out s so u sj].
    cbn [common_of offset limit search].
    destruct (nonzero o), s as [[|? ?]|]; reflexivity.
  - destruct a as [l o fm out s so u sj].
    cbn [common_of offset limit search].
    destruct (nonzero o), s as [[|? ?]|]; reflexivity.
Qed.

(** Looking a key up in the parameters of section 4.1. *)
Lemma remote_params_limit c :
  Dict.get (remote_params fr c) (lit "$limit") =
  Some (Str.of_int (limit (common_of c))).
Proof. reflexivity. Qed.

Lemma remote_params_offset c :
  Dict.get (remote_params fr c) (lit "$offset") = offset_param c.
Proof.
  unfold remote_params, entry.
  destruct (offset_param c); [reflexivity|].
  destruct c; cbn [option_map option_list app];
    try destruct (where_param fr _);
    try destruct (nonempty (sort _));
    try destruct (nonempty (search _)); reflexivity.
Qed.

Lemma remote_params_where c :
  Dict.get (remote_params fr c) (lit "$where") =
  match c with
  | Spending _ | Payroll _ => where_param fr c
  | Settlements _ | Revenue _ => None
  end.
Proof.
  unfold remote_params, entry.
  destruct (offset_param c), c; cbn [option_map option_list app];
    try destruct (where_param fr _);
    try destruct (nonempty (sort _));
    try destruct (nonempty (search _)); reflexivity.
Qed.

(** C1, as amended: for [spending] with vendor [W. B MASON], year
    [2024] and limit [50], the builder returns [$limit = 50] and a
    [$where] clause in which the year predicate comes first and the
    vendor predicate second, the fixed order of section 4.1. *)
Theorem mason_2024_params :
  command_params fr cr mason_2024 =
  Ok [ (lit "$limit", lit "50"); (lit "$where", mason_2024_year_first) ].
Proof. reflexivity. Qed.

(** C2: on the spending dataset the builder's clauses are, in the
    fixed order year, department, vendor, fund, min-amount,
    max-amount, name, search, the clause of each active filter under
    the mapping of section 4.1, one clause per active filter, and
    [$where] is these clauses joined with [ AND ]. *)
Theorem spending_clauses_in_order (a : SpendingArgs) :
  build_where fr cr (namespace_of (Spending a)) (lit "spending") =
    Ok (flat_map (fun f => option_list (spending_clause fr a f))
                 [ByYear; ByDepartment; ByVendor; ByFund;
                  ByMinAmount; ByMaxAmount; ByName; BySearch]) /\
  length (predicate_clauses fr (Spending a)) =
    length (filter (active fr (Spending a)) filter_order) /\
  exists params,
    command_params fr cr (Spending a) = Ok params /\
    Dict.get params (lit "$where") =
      match predicate_clauses fr (Spending a) with
      | [] => None
      | clauses => Some (Str.join (lit " AND ") clauses)
      end.
Proof.
  split; [apply build_where_spending|]. split.
  - unfold predicate_clauses, active.
    induction filter_order as [|f fs IH]; [reflexivity|].
    cbn [flat_map filter]. rewrite length_app, IH.
    now destruct (clause_of fr (Spending a) f).
  - exists (remote_params fr (Spending a)). split.
    + apply command_params_spec.
    + rewrite remote_params_where. reflexivity.
Qed.

Lemma no_clause_iff_none_active c :
  existsb (active fr c) filter_order =
  match predicate_clauses fr c with [] => false | _ => true end.
Proof.
  unfold predicate_clauses, active.
  induction filter_order as [|f fs IH]; [reflexivity|].
  cbn [flat_map existsb]. rewrite IH.
  now destruct (clause_of fr c f).
Qed.

(** On any namespace on which the builder returns, [$where] is set
    exactly when the list of clauses is not empty. *)
Lemma build_query_where_key args dataset_key params :
  build_query fr cr args dataset_key = Ok params ->
  exists where_clauses,
    build_where fr cr args dataset_key = Ok where_clauses /\
    Dict.has params (lit "$where") =
      match where_clauses with [] => false | _ => true end.
Proof.
  unfold build_query, limit_offset.
  destruct (getattr args (lit "limit")) as [l|]; [|discriminate].
  destruct (getattr args (lit "offset")) as [o|]; [|discriminate].
  cbn [bind].
  destruct (build_where fr cr args dataset_key) as [wc|]; [|discriminate].
  destruct (getattr args (lit "sort")) as [so|]; [|discriminate].
  cbn [bind]. intros H. injection H as <-. exists wc. split; [reflexivity|].
  destruct (truthy o), wc, (truthy so); reflexivity.
Qed.

(** C6: the parameters hold a [$where] key exactly when at least
    one active filter produced a clause; with no active filter the
    key is absent. *)
Theorem where_key_iff_active (c : Command) :
  exists params,
    command_params fr cr c = Ok params /\
    Dict.has params (lit "$where") = existsb (active fr c) filter_order /\
    Dict.has params (lit "$where") =
      match predicate_clauses fr c with [] => false | _ => true end.
Proof.
  exists (remote_params fr c). split; [apply command_params_spec|].
  rewrite no_clause_iff_none_active.
  assert (H : Dict.has (remote_params fr c) (lit "$where") =
              match predicate_clauses fr c with [] => false | _ => true end).
  { unfold Dict.has. rewrite remote_params_where.
    destruct c; unfold where_param;
      try (now destruct (predicate_clauses fr _)); reflexivity. }
  now split.
Qed.

(** C7, as amended: [$limit] is [str(limit)] for the integer given
    with [--limit], whatever its sign; it is the decimal
    representation of a positive integer exactly when that integer
    is positive. *)
Theorem limit_param_is_str_of_limit (c : Command) :
  exists params,
    command_params fr cr c = Ok params /\
    Dict.get params (lit "$limit") = Some (Str.of_int (limit (common_of c))) /\
    (is_positive_decimal (Str.of_int (limit (common_of c))) <->
     (0 < limit (common_of c))%Z).
Proof.
  exists (remote_params fr c).
  split; [apply command_params_spec|].
  split; [apply remote_params_limit|apply positive_decimal_iff].
Qed.

(** C9: for every dataset command an offset of [0] is treated like
    no offset at all: [$offset] is absent then, and it is
    [str(offset)] for every other offset. *)
Theorem zero_offset_is_absent (c : Command) :
  exists params,
    command_params fr cr c = Ok params /\
    Dict.get params (lit "$offset") =
      match offset (common_of c) with
      | Some n => if Z.eqb n 0 then None else Some (Str.of_int n)
      | None => None
      end.
Proof.
  exists (remote_params fr c).
  split; [apply command_params_spec|].
  rewrite remote_params_offset. unfold offset_param.
  destruct (offset (common_of c)) as [n|]; [|reflexivity].
  cbn [nonzero]. now destruct (Z.eqb n 0).
Qed.

End QueryBuilderFacts.

(** C1, as stated: no choice of the built-ins makes the builder put
    the vendor predicate before the year predicate. *)
Lemma mason_2024_vendor_first_refuted :
  ~ exists fr cr params,
      command_params fr cr mason_2024 = Ok params /\
      Dict.get params (lit "$where") = Some mason_2024_vendor_first.
Proof.
  intros (fr & cr & params & H & Hw).
  rewrite command_params_spec in H. injection H as <-.
  vm_compute in Hw. discriminate Hw.
Qed.

(** C7, as stated: [--limit 0] is accepted, and the [$limit] it
    yields is not the representation of a positive integer. *)
Lemma limit_zero_refutes_positive :
  ~ exists fr cr params v,
      command_params fr cr (Settlements (no_common 0)) = Ok params /\
      Dict.get params (lit "$limit") = Some v /\
      is_positive_decimal v.
Proof.
  intros (fr & cr & params & v & H & Hv & Hpos).
  rewrite command_params_spec in H. injection H as <-.
  rewrite remote_params_limit in Hv. injection Hv as <-.
  apply (positive_decimal_iff 0) in Hpos. lia.
Qed.

(** ** Snapshot file names *)

Lemma lstrip_Forall (P : char -> Prop) c s :
  Forall P s -> Forall P (Str.lstrip c s).
Proof.
  induction 1 as [|x s Hx Hs IH]; cbn; [constructor|].
  destruct (N.eqb x c); [exact IH|now constructor].
Qed.

Lemma lstrip_length c s : length (Str.lstrip c s) <= length s.
Proof.
  induction s as [|x s IH]; cbn; [lia|].
  destruct (N.eqb x c); cbn; lia.
Qed.

Lemma lstrip_idem c s : Str.lstrip c (Str.lstrip c s) = Str.lstrip c s.
Proof.
  induction s as [|x s IH]; cbn; [reflexivity|].
  destruct (N.eqb x c) eqn:E; [exact IH|]. cbn. now rewrite E.
Qed.

Lemma lstrip_snoc c s x :
  N.eqb x c = false -> Str.lstrip c (s ++ [x]) = Str.lstrip c s ++ [x].
Proof.
  intros Hx. induction s as [|y s IH]; cbn; [now rewrite Hx|].
  now destruct (N.eqb y c).
Qed.

(** What [lstrip] returns does not start with the stripped character. *)
Lemma lstrip_head c s :
  Str.lstrip c s = [] \/
  exists x s', Str.lstrip c s = x :: s' /\ N.eqb x c = false.
Proof.
  induction s as [|x s IH]; cbn; [now left|].
  destruct (N.eqb x c) eqn:E; [exact IH|]. right. now exists x, s.
Qed.

Lemma strip_Forall (P : char -> Prop) c s :
  Forall P s -> Forall P (Str.strip c s).
Proof.
  intros H. unfold Str.strip, Str.rstrip.
  apply Forall_rev, lstrip_Forall, Forall_rev, lstrip_Forall, H.
Qed.

Lemma strip_length c s : length (Str.strip c s) <= length s.
Proof.
  unfold Str.strip, Str.rstrip. rewrite length_rev.
  etransitivity; [apply lstrip_length|]. rewrite length_rev.
  apply lstrip_length.
Qed.

Lemma strip_idem c s : Str.strip c (Str.strip c s) = Str.strip c s.
Proof.
  unfold Str.strip, Str.rstrip.
  destruct (lstrip_head c s) as [E|(x & t & E & Hx)]; rewrite E.
  - reflexivity.
  - cbn [rev]. rewrite lstrip_snoc by exact Hx.
    rewrite rev_app_distr. cbn [rev app Str.lstrip]. rewrite Hx.
    change (x :: rev (Str.lstrip c (rev t)))
      with (rev [x] ++ rev (Str.lstrip c (rev t))).
    rewrite <- rev_app_distr, rev_involutive.
    rewrite lstrip_snoc by exact Hx.
    now rewrite lstrip_idem.
Qed.

Lemma prefix_Forall (P : char -> Prop) n s :
  Forall P s -> Forall P (Str.prefix n s).
Proof.
  unfold Str.prefix. intros H. revert n.
  induction H as [|x s Hx Hs IH]; intros [|n]; cbn [firstn];
    constructor; auto.
Qed.

Lemma prefix_length n s : length (Str.prefix n s) = Nat.min n (length s).
Proof. apply length_firstn. Qed.

Section SanitizeFacts.

Variable unicode_alnum : char -> bool.

Lemma sub_nonword_fixed s :
  Forall (fun c => (if is_word unicode_alnum c then c else 95%N) = c) s ->
  sub_nonword unicode_alnum s = s.
Proof.
  unfold sub_nonword.
  induction 1 as [|c s Hc Hs IH]; cbn [map]; [reflexivity|].
  now rewrite Hc, IH.
Qed.

Lemma sub_nonword_image s :
  Forall (fun c => (if is_word unicode_alnum c then c else 95%N) = c)
         (sub_nonword unicode_alnum s).
Proof.
  unfold sub_nonword.
  induction s as [|c s IH]; cbn [map]; constructor; [|exact IH].
  destruct (is_word unicode_alnum c) eqn:E; [now rewrite E|].
  now destruct (is_word unicode_alnum 95%N).
Qed.

(** C8: cleaning a filter value for the snapshot file name
    (non-word characters replaced by an underscore, the first 20
    characters kept, underscores stripped at both ends) is
    idempotent. *)
Theorem sanitize_idempotent (s : str) :
  sanitize unicode_alnum (sanitize unicode_alnum s) =
  sanitize unicode_alnum s.
Proof.
  unfold sanitize at 1.
  set (t := sanitize unicode_alnum s).
  assert (Hfix : sub_nonword unicode_alnum t = t).
  { apply sub_nonword_fixed. unfold t, sanitize, Str.prefix.
    apply strip_Forall, prefix_Forall, sub_nonword_image. }
  assert (Hlen : length t <= 20).
  { unfold t, sanitize, Str.prefix.
    etransitivity; [apply strip_length|]. apply firstn_le_length. }
  rewrite Hfix. unfold Str.prefix. rewrite firstn_all2 by exact Hlen.
  unfold t, sanitize. apply strip_idem.
Qed.

End SanitizeFacts.

(** ** Dictionaries *)

Lemma str_eqb_eq a b : Str.eqb a b = true <-> a = b.
Proof.
  revert b; induction a as [|x a IH]; destruct b as [|y b]; cbn;
    try (split; [discriminate|discriminate]); [tauto|].
  rewrite andb_true_iff, N.eqb_eq, IH.
  split; [intros [-> ->]; reflexivity|intros H; injection H; auto].
Qed.

Lemma str_eqb_refl a : Str.eqb a a = true.
Proof. now apply str_eqb_eq. Qed.

Lemma dict_get_set_same {V} (d : dict V) k v :
  Dict.get (Dict.set d k v) k = Some v.
Proof.
  induction d as [|[k' v'] d IH]; cbn.
  - now rewrite str_eqb_refl.
  - destruct (Str.eqb k' k) eqn:E; cbn; now rewrite E.
Qed.

Lemma dict_get_set_other {V} (d : dict V) k k' v :
  k <> k' -> Dict.get (Dict.set d k v) k' = Dict.get d k'.
Proof.
  intros Hne. induction d as [|[k0 v0] d IH]; cbn.
  - destruct (Str.eqb k k') eqn:E; [|reflexivity].
    apply str_eqb_eq in E. contradiction.
  - destruct (Str.eqb k0 k) eqn:E; cbn.
    + apply str_eqb_eq in E; subst k0.
      destruct (Str.eqb k k') eqn:E'; [|reflexivity].
      apply str_eqb_eq in E'. contradiction.
    + now rewrite IH.
Qed.

Lemma mapM_total {A B} (f : A -> result B) (g : A -> B) l :
  Forall (fun a => f a = Ok (g a)) l -> mapM f l = Ok (List.map g l).
Proof.
  induction 1 as [|a l Ha Hl IH]; cbn [mapM List.map]; [reflexivity|].
  now rewrite Ha, IH.
Qed.

(** ** The table *)

Lemma ljust_length w s : length (Str.ljust w s) = Nat.max w (length s).
Proof. unfold Str.ljust. rewrite length_app, repeat_length. lia. Qed.

Lemma fit_length w text : length (fit w text) = w.
Proof. unfold fit. rewrite ljust_length, prefix_length. lia. Qed.

Lemma header_length w col : length (Str.prefix w (Str.ljust w col)) = w.
Proof. rewrite prefix_length, ljust_length. lia. Qed.

Lemma fold_max_list_max {A} (f : A -> nat) l init :
  fold_left (fun m a => Nat.max m (f a)) l init =
  Nat.max init (list_max (List.map f l)).
Proof.
  revert init; induction l as [|a l IH]; intros init; cbn [fold_left List.map].
  - cbn. lia.
  - rewrite IH. cbn [list_max fold_right]. fold (list_max (List.map f l)). lia.
Qed.

Section TableFacts.

Variable fr : spec_float -> str.
Variable cr : pyval -> str.

(** The width loop computes the width of section 4.3. *)
Lemma column_width_spec data col :
  column_width fr cr data col = spec_width fr cr data col.
Proof.
  unfold column_width, spec_width, sampled_lengths.
  rewrite (fold_max_list_max
             (fun row => length (Str.prefix 40 (cell_text fr cr row col)))).
  apply Nat.min_comm.
Qed.


Lemma compute_widths_get data cols :
  forall acc col,
    In col cols \/ Dict.get acc col = Some (column_width fr cr data col) ->
    Dict.get (fold_left
                (fun widths col =>
                   Dict.set widths col (column_width fr cr data col))
                cols acc) col =
    Some (column_width fr cr data col).
Proof.
  induction cols as [|c cols IH]; intros acc col H; cbn [fold_left].
  - destruct H as [[]|H]; exact H.
  - apply IH.
    destruct (Str.eqb c col) eqn:E.
    + apply str_eqb_eq in E; subst c. right. apply dict_get_set_same.
    + assert (c <> col) by (intros ->; now rewrite str_eqb_refl in E).
      destruct H as [[->|H]|H]; [contradiction|now left|right].
      now rewrite dict_get_set_other.
Qed.

(** Every column shown has its width in [widths]. *)
Lemma widths_lookup data cols :
  Forall (fun col =>
            getitem (compute_widths fr cr data cols) col =
            Ok (spec_width fr cr data col)) cols.
Proof.
  apply Forall_forall. intros col Hin. unfold getitem, compute_widths.
  rewrite compute_widths_get by now left.
  now rewrite column_width_spec.
Qed.

Lemma row_cells_spec data cols row :
  row_cells fr cr (compute_widths fr cr data cols) cols row =
  Ok (List.map (fun col => fit (spec_width fr cr data col)
                               (cell_text fr cr row col)) cols).
Proof.
  unfold row_cells. apply mapM_total.
  eapply Forall_impl; [|apply widths_lookup].
  intros col H. cbn beta. now rewrite H.
Qed.

Lemma header_cells_spec data cols :
  header_cells (compute_widths fr cr data cols) cols =
  Ok (List.map (fun col =>
                  Str.prefix (spec_width fr cr data col)
                             (Str.ljust (spec_width fr cr data col) col))
               cols).
Proof.
  unfold header_cells. apply mapM_total.
  eapply Forall_impl; [|apply widths_lookup].
  intros col H. cbn beta. now rewrite H.
Qed.

Lemma separator_cells_spec data cols :
  separator_cells (compute_widths fr cr data cols) cols =
  Ok (List.map (fun col => Str.times 45%N (spec_width fr cr data col)) cols).
Proof.
  unfold separator_cells. apply mapM_total.
  eapply Forall_impl; [|apply widths_lookup].
  intros col H. cbn beta. now rewrite H.
Qed.

(** The table never fails, and it is made of these cells. *)
Lemma format_table_spec first rest columns :
  let data := first :: rest in
  let cols := table_columns first columns in
  format_table fr cr data columns =
  Ok (Str.join [10%N]
        ([Str.join (lit " | ")
            (List.map (fun col =>
                         Str.prefix (spec_width fr cr data col)
                                    (Str.ljust (spec_width fr cr data col) col))
                      cols);
          Str.join (lit "-+-")
            (List.map (fun col => Str.times 45%N (spec_width fr cr data col))
                      cols)] ++
         List.map (Str.join (lit " | ")) (table_cells fr cr data cols))).
Proof.
  intros data cols. subst data cols.
  unfold format_table. cbv beta iota zeta.
  set (data := first :: rest). set (cols := table_columns first columns).
  rewrite header_cells_spec, separator_cells_spec. cbn [bind].
  rewrite (mapM_total _
             (fun row => Str.join (lit " | ")
                (List.map (fun col => fit (spec_width fr cr data col)
                                          (cell_text fr cr row col)) cols))).
  - cbn [bind]. unfold table_cells. now rewrite map_map.
  - apply Forall_forall. intros row _. now rewrite row_cells_spec.
Qed.


End TableFacts.

(** ** CSV *)

Lemma contains_app c s t :
  Str.contains c (s ++ t) = Str.contains c s || Str.contains c t.
Proof. apply existsb_app. Qed.

(** Doubling the quotes neither adds nor removes a comma, a quote or
    a newline. *)
Lemma contains_replace_quote c text :
  Str.contains c (Str.replace 34%N [34%N; 34%N] text) = Str.contains c text.
Proof.
  unfold Str.replace.
  induction text as [|x text IH]; cbn [flat_map]; [reflexivity|].
  rewrite contains_app, IH. unfold Str.contains at 3. cbn [existsb].
  fold (Str.contains c text). f_equal.
  destruct (N.eqb x 34) eqn:E.
  - apply N.eqb_eq in E; subst x. cbn. now destruct (N.eqb c 34).
  - cbn. apply orb_false_r.
Qed.

Lemma needs_quotes_replace text :
  needs_quotes (Str.replace 34%N [34%N; 34%N] text) = needs_quotes text.
Proof. unfold needs_quotes. now rewrite !contains_replace_quote. Qed.

Lemma csv_value_spec text :
  csv_value text =
  if needs_quotes text
  then [34%N] ++ Str.replace 34%N [34%N; 34%N] text ++ [34%N]
  else text.
Proof.
  unfold csv_value, needs_quotes. cbv zeta.
  rewrite !contains_replace_quote.
  destruct (Str.contains 44%N text || Str.contains 34%N text ||
            Str.contains 10%N text) eqn:E; [reflexivity|].
  apply orb_false_elim in E as [E _]. apply orb_false_elim in E as [_ E].
  unfold Str.replace, Str.contains in *. clear -E.
  induction text as [|x text IH]; [reflexivity|].
  cbn [existsb] in E. apply orb_false_elim in E as [Ex E].
  cbn [flat_map]. rewrite N.eqb_sym in Ex. rewrite Ex, IH by exact E.
  reflexivity.
Qed.

(** Reading the inside of a quoted field back. *)
Lemma read_quoted_field text :
  forall field rest,
    at_field_end rest = true ->
    read_field InQuotedField field
               (Str.replace 34%N [34%N; 34%N] text ++ 34%N :: rest) =
    (field ++ text, rest).
Proof.
  unfold Str.replace.
  induction text as [|x text IH]; intros field rest Hrest.
  - cbn [flat_map app read_field N.eqb Pos.eqb]. rewrite app_nil_r.
    destruct rest as [|c rest]; [reflexivity|].
    cbn [read_field]. cbn [at_field_end] in Hrest.
    destruct (N.eqb c 34) eqn:E.
    + apply N.eqb_eq in E; subst c. discriminate Hrest.
    + now rewrite Hrest.
  - cbn [flat_map]. destruct (N.eqb x 34) eqn:E.
    + apply N.eqb_eq in E; subst x.
      cbn [app read_field N.eqb Pos.eqb]. rewrite IH by exact Hrest.
      now rewrite <- app_assoc.
    + cbn [app read_field]. rewrite E, IH by exact Hrest.
      now rewrite <- app_assoc.
Qed.

(** Reading a field that needed no quotes and holds no carriage
    return. *)
Lemma read_plain_field text :
  forall field rest,
    forallb (fun c => negb (ends_field c)) text = true ->
    at_field_end rest = true ->
    read_field InField field (text ++ rest) = (field ++ text, rest).
Proof.
  induction text as [|x text IH]; intros field rest Htext Hrest.
  - cbn [app]. rewrite app_nil_r.
    destruct rest as [|c rest]; [reflexivity|].
    cbn [read_field]. cbn [at_field_end] in Hrest. now rewrite Hrest.
  - cbn [forallb] in Htext. apply andb_true_iff in Htext as [Hx Htext].
    apply negb_true_iff in Hx.
    cbn [app read_field]. rewrite Hx, IH by assumption.
    now rewrite <- app_assoc.
Qed.

Section CsvFacts.

Variable fr : spec_float -> str.
Variable cr : pyval -> str.

Lemma fold_append_lines {A} (f : A -> str) l init :
  fold_left (fun output a => output ++ [f a]) l init = init ++ List.map f l.
Proof.
  revert init; induction l as [|a l IH]; intros init; cbn [fold_left List.map].
  - now rewrite app_nil_r.
  - rewrite IH. now rewrite <- app_assoc.
Qed.

(** The CSV text: the keys of the first record, then one line per
    record. *)
Lemma format_csv_spec first rest :
  let data := first :: rest in
  let cols := Dict.keys first in
  format_csv fr cr data =
  Str.join [10%N]
           (Str.join (lit ",") cols :: List.map (csv_line fr cr cols) data).
Proof.
  intros data cols. unfold format_csv. subst data cols.
  cbv beta iota zeta.
  now rewrite (fold_append_lines (csv_line fr cr (Dict.keys first))).
Qed.

(** C4: the CSV text is the line of the keys of the first record
    and then one line per record, in which every value is the
    stringified field, enclosed in quotes with its quotes doubled if
    and only if it holds a comma, a quote or a newline; and a string
    field that holds a comma or a quote is read back unchanged from
    what was emitted for it by a standard CSV reader, up to the
    delimiter that follows it. *)
Theorem csv_quoting_round_trip (data : list Row) :
  let emitted (value : str) :=
    if Str.contains 44%N value || Str.contains 34%N value ||
       Str.contains 10%N value
    then [34%N] ++ Str.replace 34%N [34%N; 34%N] value ++ [34%N]
    else value in
  let field (row : Row) (col : str) :=
    emitted (py_str fr cr (Dict.get_default row col (PyStr []))) in
  format_csv fr cr data =
    match data with
    | [] => []
    | first :: _ =>
        let cols := Dict.keys first in
        Str.join [10%N]
          (Str.join (lit ",") cols ::
           List.map
             (fun row => Str.join (lit ",") (List.map (field row) cols))
             data)
    end /\
  (forall (row : Row) (col text tail : str),
     In row data ->
     Dict.get row col = Some (PyStr text) ->
     Str.contains 44%N text || Str.contains 34%N text = true ->
     at_field_end tail = true ->
     parse_field (field row col ++ tail) = (text, tail)).
Proof.
  intros emitted field.
  assert (Hemitted : forall value, csv_value value = emitted value)
    by (intros value; apply csv_value_spec).
  split.
  - destruct data as [|first rest]; [reflexivity|].
    rewrite format_csv_spec. cbv zeta. do 2 f_equal.
    apply map_ext. intros row. unfold csv_line. f_equal.
    apply map_ext. intros col. apply Hemitted.
  - intros row col text tail _ Hget Htext Htail.
    subst field. cbv beta. unfold Dict.get_default. rewrite Hget.
    cbn [py_str]. subst emitted. cbv beta.
    rewrite Htext. cbn [orb].
    rewrite <- !app_assoc. cbn [app].
    unfold parse_field. cbn [read_field N.eqb Pos.eqb].
    now rewrite read_quoted_field.
Qed.

End CsvFacts.

(** A record with a value that holds a comma and quotes, followed by
    another field. *)
Lemma csv_quoting_round_trip_witness :
  let said := lit "say, " ++ [34%N] ++ lit "hi" ++ [34%N] in
  let row : Row := [(lit "note", PyStr said); (lit "n", PyInt 1)] in
  format_csv (fun _ => []) (fun _ => []) [row] =
    lit "note,n" ++ [10%N] ++
    [34%N] ++ lit "say, " ++ [34%N; 34%N] ++ lit "hi" ++ [34%N; 34%N] ++
    [34%N] ++ lit ",1" /\
  parse_field
    ([34%N] ++ lit "say, " ++ [34%N; 34%N] ++ lit "hi" ++ [34%N; 34%N] ++
     [34%N] ++ lit ",1") = (said, lit ",1").
Proof.
  intros said row.
  destruct (csv_quoting_round_trip (fun _ => []) (fun _ => []) [row])
    as (Htext & Hback).
  split; [exact Htext|].
  apply (Hback row (lit "note") said (lit ",1"));
    [now left|reflexivity|reflexivity|reflexivity].
Defined.

(** ** Null and absent fields *)

Lemma list_max_In n l : In n l -> n <= list_max l.
Proof.
  intros H. pose proof (proj1 (list_max_le l (list_max l)) (le_n _)) as Hall.
  rewrite Forall_forall in Hall. now apply Hall.
Qed.

Section NullFacts.

Variable fr : spec_float -> str.
Variable cr : pyval -> str.

Lemma cell_text_null row col :
  Dict.get row col = Some PyNone -> cell_text fr cr row col = lit "None".
Proof. intros H. unfold cell_text, Dict.get_default. now rewrite H. Qed.

Lemma cell_text_absent row col :
  Dict.get row col = None -> cell_text fr cr row col = [].
Proof. intros H. unfold cell_text, Dict.get_default. now rewrite H. Qed.

(** A sampled null makes its column at least four wide. *)
Lemma sampled_null_width data row col :
  In row (firstn 50 data) ->
  Dict.get row col = Some PyNone ->
  4 <= spec_width fr cr data col.
Proof.
  intros Hin Hnull. unfold spec_width.
  assert (4 <= list_max (sampled_lengths fr cr data col)).
  { apply list_max_In. unfold sampled_lengths.
    apply in_map_iff. exists row. split; [|exact Hin].
    now rewrite cell_text_null. }
  lia.
Qed.

(** C10, as amended: in the CSV text the line of a record is made
    by [csv_line], which writes a field holding null as [None] and a
    field the record lacks as the empty string.  In the table the
    line of a record is made of its [row_cells], each cut to the
    column's width and padded to it: the null field is the first
    characters of [None] and padding, which is [None] and padding
    once the column is four wide, as it is when the null is among
    the first 50 records; the absent field is all spaces; the two
    cells differ unless the width is zero, and so do the two rows of
    cells when the column is shown. *)
Theorem null_versus_absent (first : Row) (rest : list Row)
        (columns : option (list str)) (null_row absent_row : Row)
        (col : str)
        (Hnull : Dict.get null_row col = Some PyNone)
        (Habsent : Dict.get absent_row col = None) :
  let data := first :: rest in
  let keys := Dict.keys first in
  let cols := table_columns first columns in
  let widths := compute_widths fr cr data cols in
  let w := column_width fr cr data col in
  let field (row : Row) (key : str) := csv_value (cell_text fr cr row key) in
  let cell (row : Row) (c : str) :=
    Str.ljust (column_width fr cr data c)
              (Str.prefix (column_width fr cr data c)
                          (cell_text fr cr row c)) in
  let null_cell := Str.ljust w (Str.prefix w (lit "None")) in
  let null_cells := row_cells fr cr widths cols null_row in
  let absent_cells := row_cells fr cr widths cols absent_row in
  format_csv fr cr data =
    Str.join [10%N]
      (Str.join (lit ",") keys :: List.map (csv_line fr cr keys) data) /\
  csv_line fr cr keys null_row =
    Str.join (lit ",")
      (List.map (fun key => if Str.eqb key col then lit "None"
                            else field null_row key) keys) /\
  csv_line fr cr keys absent_row =
    Str.join (lit ",")
      (List.map (fun key => if Str.eqb key col then []
                            else field absent_row key) keys) /\
  (exists header separator lines,
     format_table fr cr data columns =
       Ok (Str.join [10%N] (header :: separator :: lines)) /\
     Forall2 (fun row line =>
                exists cells,
                  row_cells fr cr widths cols row = Ok cells /\
                  line = Str.join (lit " | ") cells)
             data lines) /\
  null_cells =
    Ok (List.map (fun c => if Str.eqb c col then null_cell
                           else cell null_row c) cols) /\
  absent_cells =
    Ok (List.map (fun c => if Str.eqb c col then repeat 32%N w
                           else cell absent_row c) cols) /\
  (4 <= w -> null_cell = lit "None" ++ repeat 32%N (w - 4)) /\
  (In null_row (firstn 50 data) -> 4 <= w) /\
  (0 < w -> null_cell <> repeat 32%N w) /\
  (In col cols -> 0 < w -> null_cells <> absent_cells).
Proof.
  intros data keys cols widths w field cell null_cell null_cells absent_cells.
  assert (Hspaces : fit w [] = repeat 32%N w).
  { unfold fit, Str.ljust, Str.prefix. rewrite firstn_nil. cbn [length app].
    now rewrite Nat.sub_0_r. }
  assert (Hdiffer : 0 < w -> null_cell <> repeat 32%N w).
  { intros Hw E. subst null_cell. destruct w as [|n]; [lia|].
    unfold Str.ljust, Str.prefix in E. cbn in E. discriminate E. }
  assert (Hcells : forall row,
             row_cells fr cr widths cols row =
             Ok (List.map (cell row) cols)).
  { intros row. subst widths cell. rewrite row_cells_spec. f_equal.
    apply map_ext. intros c. now rewrite column_width_spec. }
  assert (Hnull_cells :
            List.map (cell null_row) cols =
            List.map (fun c => if Str.eqb c col then null_cell
                               else cell null_row c) cols).
  { apply map_ext. intros c. destruct (Str.eqb c col) eqn:E; [|reflexivity].
    apply str_eqb_eq in E; subst c cell null_cell. cbv beta.
    now rewrite (cell_text_null _ _ Hnull). }
  assert (Habsent_cells :
            List.map (cell absent_row) cols =
            List.map (fun c => if Str.eqb c col then repeat 32%N w
                               else cell absent_row c) cols).
  { apply map_ext. intros c. destruct (Str.eqb c col) eqn:E; [|reflexivity].
    apply str_eqb_eq in E; subst c cell. cbv beta.
    rewrite (cell_text_absent _ _ Habsent). exact Hspaces. }
  split; [apply format_csv_spec|].
  split.
  { unfold csv_line. f_equal. apply map_ext. intros key.
    destruct (Str.eqb key col) eqn:E; [|reflexivity].
    apply str_eqb_eq in E; subst key.
    now rewrite (cell_text_null _ _ Hnull). }
  split.
  { unfold csv_line. f_equal. apply map_ext. intros key.
    destruct (Str.eqb key col) eqn:E; [|reflexivity].
    apply str_eqb_eq in E; subst key.
    now rewrite (cell_text_absent _ _ Habsent). }
  split.
  { do 2 eexists. exists (List.map (fun row =>
                             Str.join (lit " | ") (List.map (cell row) cols))
                          data).
    split.
    - subst data. rewrite format_table_spec. cbv zeta. unfold table_cells.
      rewrite map_map. cbn [app]. do 4 f_equal.
      apply map_ext. intros row. f_equal. apply map_ext. intros c.
      subst cell. cbv beta. rewrite column_width_spec. reflexivity.
    - generalize data. intros l.
      induction l as [|row l IH]; cbn [List.map]; constructor; [|exact IH].
      eexists. split; [apply Hcells|reflexivity]. }
  split; [subst null_cells; now rewrite Hcells, Hnull_cells|].
  split; [subst absent_cells; now rewrite Hcells, Habsent_cells|].
  split.
  { intros Hw. subst null_cell. unfold Str.ljust, Str.prefix.
    rewrite firstn_all2 by (change (length (lit "None")) with 4; lia).
    reflexivity. }
  split.
  { intros Hin. subst w. rewrite column_width_spec.
    exact (sampled_null_width _ _ _ Hin Hnull). }
  split; [exact Hdiffer|].
  intros Hcol Hw E. subst null_cells absent_cells.
  rewrite !Hcells in E. injection E as E.
  assert (Hat : cell null_row col = cell absent_row col).
  { clear -E Hcol. induction cols as [|c cols' IH]; [contradiction|].
    cbn [List.map] in E. injection E as Ec E.
    destruct Hcol as [->|Hcol]; [exact Ec|now apply IH]. }
  apply (Hdiffer Hw). subst cell null_cell. cbv beta in Hat.
  rewrite (cell_text_null _ _ Hnull), (cell_text_absent _ _ Habsent) in Hat.
  etransitivity; [exact Hat|exact Hspaces].
Qed.

End NullFacts.

(** A null in the first record of two, and a record without the
    column: the table cells are [None] and four spaces, the CSV
    fields [None] and nothing. *)
Lemma null_versus_absent_witness :
  let row_null : Row := [(lit "id", PyNone)] in
  let row_absent : Row := [(lit "x", PyStr (lit "1"))] in
  let data := [row_null; row_absent] in
  let fr : spec_float -> str := fun _ => [] in
  let cr : pyval -> str := fun _ => [] in
  let widths := compute_widths fr cr data [lit "id"] in
  format_csv fr cr data = lit "id" ++ [10%N] ++ lit "None" ++ [10%N] /\
  csv_line fr cr [lit "id"] row_null = lit "None" /\
  csv_line fr cr [lit "id"] row_absent = [] /\
  row_cells fr cr widths [lit "id"] row_null = Ok [lit "None"] /\
  row_cells fr cr widths [lit "id"] row_absent = Ok [lit "    "].
Proof.
  intros row_null row_absent data fr cr widths.
  destruct (@null_versus_absent fr cr row_null [row_absent] None
              row_null row_absent (lit "id") eq_refl eq_refl)
    as (Hcsv & Hnull & Habsent & _ & Hnull_cells & Habsent_cells & _).
  exact (conj Hcsv
           (conj Hnull (conj Habsent (conj Hnull_cells Habsent_cells)))).
Defined.

(** C10, as stated: in [narrow_table] the last record holds a null
    [id], and its cell is cut to the two characters of the column. *)
Lemma narrow_table_null_cell :
  let row := last narrow_table [] in
  let cols := table_columns (hd [] narrow_table) None in
  Dict.get row (lit "id") = Some PyNone /\
  In (lit "id") cols /\
  (forall fr cr,
      row_cells fr cr (compute_widths fr cr narrow_table cols) cols row =
      Ok [lit "No"]) /\
  ~ exists rest, lit "No" = lit "None" ++ rest.
Proof.
  intros row cols. split; [reflexivity|]. split; [now left|]. split.
  - intros fr cr. vm_compute. reflexivity.
  - intros (rest & H). discriminate H.
Qed.

(** ** The writer *)

Section WriterFacts.

Variable fr : spec_float -> str.
Variable cr : pyval -> str.
Variable unicode_alnum : char -> bool.
Variable json_dumps : pyval -> str.
Variable urlencode : dict str -> str.
Variable now_strftime : str.
Variable now_isoformat : str.
Variable file_system : str -> str -> option write_failure.

(** C3: for an empty result set, whatever the output format and
    whether or not a snapshot or an output file was asked for, the
    writer prints exactly [No results found.] and writes no file;
    so does the whole run of every command. *)
Theorem empty_results_only_print (args : Namespace)
        (default_columns : option (list str)) (url dataset_id : pyval)
        (params : option (dict str)) (c : Command) :
  run (output_results fr cr unicode_alnum json_dumps urlencode
                      now_strftime now_isoformat file_system
                      [] args default_columns url dataset_id params) =
    ([Printed (lit "No results found.")], Ok tt) /\
  run (run_command fr cr unicode_alnum json_dumps urlencode
                   now_strftime now_isoformat file_system c []) =
    ([Printed (lit "No results found.")], Ok tt).
Proof.
  split; [reflexivity|].
  unfold run, run_command, seq, lift.
  rewrite command_params_spec. now destruct c.
Qed.

End WriterFacts.

(** ** The model at work *)

Example sanitize_mason unicode_alnum :
  sanitize unicode_alnum (lit "W. B MASON") = lit "W__B_MASON".
Proof. reflexivity. Qed.

Example sanitize_strips_ends unicode_alnum :
  sanitize unicode_alnum (lit "--opioid (settlement) fund, 2024--") =
  lit "opioid__settlement".
Proof. reflexivity. Qed.

Example payroll_amount_range fr cr (lo hi : spec_float) :
  let c := Payroll {| pr_common := no_common 100; pr_year := None;
                      pr_dept := None; pr_name := None;
                      pr_min_amount := Some lo; pr_max_amount := Some hi |} in
  command_params fr cr c =
  Ok [ (lit "$limit", lit "100");
       (lit "$where",
        lit "pay_total_actual >= " ++ fr lo ++ lit " AND " ++
        lit "pay_total_actual <= " ++ fr hi) ].
Proof. reflexivity. Qed.

Example table_of_two fr cr :
  format_table fr cr
    [ [(lit "id", PyStr (lit "1")); (lit "vendor", PyStr (lit "ACME"))];
      [(lit "id", PyNone)] ] None =
  Ok (Str.join [10%N]
        [ lit "id   | vendor";
          lit "-----+-------";
          lit "1    | ACME  ";
          lit "None |       " ]).
Proof. reflexivity. Qed.

Example narrow_table_last_line fr cr :
  exists lines,
    format_table fr cr narrow_table None =
    Ok (Str.join [10%N] (lines ++ [lit "No"])).
Proof.
  exists ([lit "id"; lit "--"] ++ repeat (lit "1 ") 50). reflexivity.
Qed.

Example csv_of_two fr cr :
  format_csv fr cr
    [ [(lit "vendor", PyStr (lit "W. B MASON, INC")); (lit "amount", PyInt 12)];
      [(lit "vendor", PyNone)] ] =
  Str.join [10%N]
    [ lit "vendor,amount";
      [34%N] ++ lit "W. B MASON, INC" ++ [34%N] ++ lit ",12";
      lit "None," ].
Proof. reflexivity. Qed.

Example snapshot_written fr cr ua dumps enc ts iso :
  let c := Settlements {| limit := 5; offset := None; format := Csv;
                          output := Some (lit "out.csv");
                          search := Some (lit "police dept");
                          sort := None; url := false; save_json := true |} in
  let data : list Row := [[(lit "a", PyInt 1)]] in
  exists snapshot,
    run (run_command fr cr ua dumps enc ts iso (fun _ _ => None) c data) =
    ([ FileWritten (lit "settlements_police_dept_" ++ ts ++ lit ".json")
                   snapshot;
       Printed (lit "JSON saved to settlements_police_dept_" ++ ts ++
                lit ".json");
       FileWritten (lit "out.csv") (Str.join [10%N] [lit "a"; lit "1"]);
       Printed (lit "Results saved to out.csv (1 records)") ],
     Ok tt).
Proof. eexists. reflexivity. Qed.

(** * Further properties of the code *)

(** ** More on the query builder *)

Lemma join_cons sep x (xs : list str) :
  xs <> [] -> Str.join sep (x :: xs) = x ++ sep ++ Str.join sep xs.
Proof. destruct xs; [contradiction|reflexivity]. Qed.

(** Two neighbours of a joined list and their own join as one element
    give the same text. *)
Lemma join_merge sep (pre : list str) a b post :
  Str.join sep (pre ++ a :: b :: post) =
  Str.join sep (pre ++ (a ++ sep ++ b) :: post).
Proof.
  induction pre as [|p pre IH].
  - cbn [app]. rewrite join_cons by discriminate.
    destruct post as [|q post]; [reflexivity|].
    rewrite !(join_cons _ _ (xs := q :: post)) by discriminate.
    now rewrite <- !app_assoc.
  - cbn [app]. rewrite !join_cons by (destruct pre; discriminate).
    now rewrite IH.
Qed.

Section QueryBuilderMore.

Variable fr : spec_float -> str.
Variable cr : pyval -> str.

(** X1: On the payroll dataset the builder's clauses are, in the fixed
    order, the clause of each active filter: year unquoted, department
    on [department_division], amounts on [pay_total_actual], name over
    first and last name, search over both names and the department;
    one clause per active filter, joined with [ AND ]. *)
Theorem payroll_clauses_in_order (a : PayrollArgs) :
  build_where fr cr (namespace_of (Payroll a)) (lit "payroll") =
    Ok (flat_map (fun f => option_list (payroll_clause fr a f))
                 [ByYear; ByDepartment; ByVendor; ByFund;
                  ByMinAmount; ByMaxAmount; ByName; BySearch]) /\
  length (predicate_clauses fr (Payroll a)) =
    length (filter (active fr (Payroll a)) filter_order) /\
  exists params,
    command_params fr cr (Payroll a) = Ok params /\
    Dict.get params (lit "$where") =
      match predicate_clauses fr (Payroll a) with
      | [] => None
      | clauses => Some (Str.join (lit " AND ") clauses)
      end.
Proof.
  split; [apply build_where_payroll|]. split.
  - unfold predicate_clauses, active.
    induction filter_order as [|f fs IH]; [reflexivity|].
    cbn [flat_map filter]. rewrite length_app, IH.
    now destruct (clause_of fr (Payroll a) f).
  - exists (remote_params fr (Payroll a)). split.
    + apply command_params_spec.
    + rewrite remote_params_where. reflexivity.
Qed.

(** X2: The parameters of every command list their keys without
    repetition in the order [$limit], [$offset], [$where], [$order],
    [$q]; [$limit] is always there; the structured builders never set
    [$q] and the reduced ones never set [$where] or [$order]. *)
Theorem params_keys_in_order (c : Command) :
  exists params,
    command_params fr cr c = Ok params /\
    Dict.keys params =
      filter (Dict.has params)
             [lit "$limit"; lit "$offset"; lit "$where"; lit "$order";
              lit "$q"] /\
    Dict.has params (lit "$limit") = true /\
    match c with
    | Spending _ | Payroll _ => Dict.has params (lit "$q") = false
    | Settlements _ | Revenue _ =>
        Dict.has params (lit "$where") = false /\
        Dict.has params (lit "$order") = false
    end.
Proof.
  exists (remote_params fr c). split; [apply command_params_spec|].
  unfold remote_params, entry.
  destruct (offset_param c), c;
    try destruct (where_param fr _);
    try destruct (nonempty (sort _));
    try destruct (nonempty (search _));
    repeat split; reflexivity.
Qed.

(** X3: The structured builder reads [args.year] and [args.dept] without
    asking whether they exist: on the namespace of a settlements or
    revenue command it raises [AttributeError] for [year], whatever
    the dataset key. *)
Theorem build_query_needs_year (command : str) (a : CommonArgs)
        (dataset_key : str) :
  build_query fr cr (common_attrs command a) dataset_key =
  Raise (AttributeError (lit "year")).
Proof.
  destruct a as [l o fm out s so u sj].
  destruct o as [[|?|?]|]; reflexivity.
Qed.

(** X4: Filter values are put into the clause as they are, quotes
    included: a vendor value that closes the quote and opens a fund
    predicate yields the very parameters of the query with that vendor
    and that fund. *)
Theorem unescaped_value_forges_clause (common : CommonArgs)
        (year dept : option str) (lo hi : option spec_float) (v f : str)
        (Hv : v <> []) (Hf : f <> []) :
  let forged := v ++ lit "%') AND upper(fund) like upper('%" ++ f in
  command_params fr cr
    (Spending {| sp_common := common; sp_year := year; sp_dept := dept;
                 sp_vendor := Some forged; sp_fund := None;
                 sp_min_amount := lo; sp_max_amount := hi |}) =
  command_params fr cr
    (Spending {| sp_common := common; sp_year := year; sp_dept := dept;
                 sp_vendor := Some v; sp_fund := Some f;
                 sp_min_amount := lo; sp_max_amount := hi |}).
Proof.
  intros forged. rewrite !command_params_spec.
  unfold remote_params, where_param, predicate_clauses, clause_of,
    spending_clause, filter_order, flat_map.
  cbn [common_of sp_common sp_year sp_dept sp_vendor sp_fund
         sp_min_amount sp_max_amount].
  do 4 f_equal.
  assert (Hforged : nonempty (Some forged) = Some forged).
  { subst forged. destruct v; [contradiction|reflexivity]. }
  assert (Hv' : nonempty (Some v) = Some v)
    by (destruct v; [contradiction|reflexivity]).
  assert (Hf' : nonempty (Some f) = Some f)
    by (destruct f; [contradiction|reflexivity]).
  rewrite Hforged, Hv', Hf'. cbn [option_map option_list].
  cbn [nonempty option_map option_list].
  assert (E : contains_pred (lit "vendor") forged =
              contains_pred (lit "vendor") v ++ lit " AND " ++
              contains_pred (lit "fund") f).
  { subst forged. unfold contains_pred. now rewrite <- !app_assoc. }
  rewrite E.
  generalize (contains_pred (lit "vendor") v) as cv.
  generalize (contains_pred (lit "fund") f) as cf.
  intros cf cv.
  match goal with
  | |- context [ ?p1 ++ ?p2 ++ [cv] ++ [cf] ++ ?post ] =>
      generalize post as post'; generalize p1 as pre1; generalize p2 as pre2
  end.
  intros pre2 pre1 post. cbn [app].
  rewrite !(app_assoc pre1 pre2).
  generalize (pre1 ++ pre2) as pre. intros pre.
  pose proof (join_merge (lit " AND ") pre cv cf post) as J.
  destruct pre; cbn [app] in *; now rewrite J.
Qed.

End QueryBuilderMore.

(** A vendor value that carries a fund predicate. *)
Lemma unescaped_value_forges_clause_witness :
  command_params (fun _ => []) (fun _ => [])
    (Spending {| sp_common := no_common 10; sp_year := None;
                 sp_dept := None;
                 sp_vendor :=
                   Some (lit "ACME" ++
                         lit "%') AND upper(fund) like upper('%" ++
                         lit "opioid");
                 sp_fund := None;
                 sp_min_amount := None; sp_max_amount := None |}) =
  command_params (fun _ => []) (fun _ => [])
    (Spending {| sp_common := no_common 10; sp_year := None;
                 sp_dept := None;
                 sp_vendor := Some (lit "ACME");
                 sp_fund := Some (lit "opioid");
                 sp_min_amount := None; sp_max_amount := None |}).
Proof.
  apply (unescaped_value_forges_clause (fun _ => []) (fun _ => [])
           (no_common 10) None None None None
           (v := lit "ACME") (f := lit "opioid")); discriminate.
Defined.

(** ** More on the table *)

Lemma join_length sep (xs : list str) :
  length (Str.join sep xs) =
  list_sum (List.map (@length char) xs) + length sep * (length xs - 1).
Proof.
  induction xs as [|x xs IH]; [cbn; lia|].
  destruct xs as [|y xs].
  - cbn. lia.
  - rewrite join_cons by discriminate.
    rewrite !length_app, IH. cbn [List.map list_sum fold_right length].
    fold (list_sum (List.map (@length char) xs)). nia.
Qed.

Lemma dict_has_key {V} (d : dict V) k :
  In k (Dict.keys d) -> Dict.has d k = true.
Proof.
  unfold Dict.has, Dict.keys.
  induction d as [|[k' v] d IH]; cbn; [contradiction|].
  intros [->|H].
  - now rewrite str_eqb_refl.
  - destruct (Str.eqb k' k); [reflexivity|now apply IH].
Qed.

Lemma Forall_firstn_of {A} (P : A -> Prop) n (l : list A) :
  Forall P l -> Forall P (firstn n l).
Proof.
  intros H. revert n.
  induction H as [|x l Hx Hl IH]; intros [|n]; cbn [firstn];
    constructor; auto.
Qed.

Lemma split_clean sep s :
  Str.contains sep s = false -> split sep s = [s].
Proof.
  unfold Str.contains.
  induction s as [|x s IH]; [reflexivity|]. cbn [existsb split].
  intros H. apply orb_false_elim in H as [Hx Hs].
  rewrite N.eqb_sym in Hx. now rewrite Hx, (IH Hs).
Qed.

Lemma split_at sep s rest :
  Str.contains sep s = false ->
  split sep (s ++ sep :: rest) = s :: split sep rest.
Proof.
  unfold Str.contains.
  induction s as [|x s IH]; cbn [existsb app split].
  - now rewrite N.eqb_refl.
  - intros H. apply orb_false_elim in H as [Hx Hs].
    rewrite N.eqb_sym in Hx. now rewrite Hx, (IH Hs).
Qed.

(** Splitting at the separator undoes joining with it, when no piece
    holds it. *)
Lemma split_join sep (pieces : list str) :
  pieces <> [] ->
  Forall (fun piece => Str.contains sep piece = false) pieces ->
  split sep (Str.join [sep] pieces) = pieces.
Proof.
  intros Hne Hall. induction Hall as [|x xs Hx Hxs IH]; [contradiction|].
  destruct xs as [|y xs].
  - now apply split_clean.
  - rewrite join_cons by discriminate. cbn [app].
    rewrite split_at by exact Hx. f_equal. apply IH. discriminate.
Qed.

Lemma contains_repeat c x n :
  c <> x -> Str.contains c (repeat x n) = false.
Proof.
  intros Hc. unfold Str.contains.
  induction n as [|n IH]; [reflexivity|]. cbn [repeat existsb].
  rewrite IH, orb_false_r. now apply N.eqb_neq.
Qed.

Lemma contains_prefix c n s :
  Str.contains c s = false -> Str.contains c (Str.prefix n s) = false.
Proof.
  unfold Str.contains, Str.prefix. revert n.
  induction s as [|x s IH]; intros [|n] H; try reflexivity.
  cbn [existsb firstn] in *. apply orb_false_elim in H as [Hx Hs].
  now rewrite Hx, IH.
Qed.

Lemma contains_ljust c w s :
  c <> 32%N ->
  Str.contains c s = false -> Str.contains c (Str.ljust w s) = false.
Proof.
  intros Hc Hs. unfold Str.ljust.
  now rewrite contains_app, Hs, contains_repeat.
Qed.

Lemma contains_join c sep (pieces : list str) :
  Str.contains c sep = false ->
  Forall (fun piece => Str.contains c piece = false) pieces ->
  Str.contains c (Str.join sep pieces) = false.
Proof.
  intros Hsep Hall. induction Hall as [|x xs Hx Hxs IH]; [reflexivity|].
  destruct xs as [|y xs]; [exact Hx|].
  rewrite join_cons by discriminate.
  now rewrite !contains_app, Hx, Hsep, IH.
Qed.

Section TableMore.

Variable fr : spec_float -> str.
Variable cr : pyval -> str.

(** X5: when no column name and no value shown holds a line break,
    the table is a rectangle: split at its line breaks the text is a
    header, a separator and one line per record, all of the same
    length, which is the sum of the column widths plus three for
    each gap between columns.  (A line break in a name or a value
    goes into the text as it is and breaks the rectangle.) *)
Theorem table_lines_equal_length (first : Row) (rest : list Row)
        (columns : option (list str))
        (Hnames :
           Forall (fun col => Str.contains 10%N col = false)
                  (table_columns first columns))
        (Hvalues :
           Forall (fun row =>
                     Forall (fun col =>
                               Str.contains 10%N (cell_text fr cr row col) =
                               false)
                            (table_columns first columns))
                  (first :: rest)) :
  let data := first :: rest in
  let cols := table_columns first columns in
  let width :=
    list_sum (List.map (column_width fr cr data) cols) +
    3 * (length cols - 1) in
  exists text,
    format_table fr cr data columns = Ok text /\
    length (split 10%N text) = 2 + length data /\
    Forall (fun line => length line = width) (split 10%N text).
Proof.
  intros data cols width.
  eexists. split; [apply format_table_spec|]. fold data. fold cols.
  assert (Hsum : forall (g : str -> str),
             (forall col, length (g col) = spec_width fr cr data col) ->
             forall sep, length sep = 3 ->
             length (Str.join sep (List.map g cols)) = width).
  { intros g Hg sep Hsep. rewrite join_length, map_map, length_map, Hsep.
    unfold width. f_equal. f_equal. apply map_ext. intros col.
    now rewrite Hg, column_width_spec. }
  assert (Hline : forall (g : str -> str) sep,
             Str.contains 10%N sep = false ->
             Forall (fun col => Str.contains 10%N (g col) = false) cols ->
             Str.contains 10%N (Str.join sep (List.map g cols)) = false).
  { intros g sep Hsep Hg. apply contains_join; [exact Hsep|].
    apply Forall_forall. intros piece Hin.
    apply in_map_iff in Hin as (col & <- & Hin).
    rewrite Forall_forall in Hg. now apply Hg. }
  rewrite split_join.
  - split.
    + cbn [app length]. unfold table_cells. now rewrite !length_map.
    + cbn [app]. constructor; [|constructor].
      * apply Hsum; [intros col; apply header_length|reflexivity].
      * apply Hsum; [|reflexivity].
        intros col. unfold Str.times. apply repeat_length.
      * unfold table_cells. rewrite map_map.
        apply Forall_forall. intros line Hin.
        apply in_map_iff in Hin as (row & <- & _).
        apply Hsum; [intros col; apply fit_length|reflexivity].
  - discriminate.
  - cbn [app]. constructor; [|constructor].
    + apply Hline; [reflexivity|].
      eapply Forall_impl; [|exact Hnames]. intros col Hcol.
      apply contains_prefix, contains_ljust; [discriminate|exact Hcol].
    + apply Hline; [reflexivity|].
      apply Forall_forall. intros col _. unfold Str.times.
      apply contains_repeat. discriminate.
    + unfold table_cells. rewrite map_map.
      apply Forall_forall. intros line Hin.
      apply in_map_iff in Hin as (row & <- & Hin).
      apply Hline; [reflexivity|].
      rewrite Forall_forall in Hvalues. specialize (Hvalues row Hin).
      eapply Forall_impl; [|exact Hvalues]. intros col Hcol.
      unfold fit. apply contains_ljust; [discriminate|].
      now apply contains_prefix.
Qed.

(** X6: Only keys of the first record become columns: of the default
    columns those the first record has, in their order, or else its
    first eight keys. *)
Theorem table_columns_are_keys (first : Row) (columns : option (list str)) :
  let cols := table_columns first columns in
  Forall (fun col => Dict.has first col = true) cols /\
  match columns with
  | Some ((_ :: _) as given) =>
      cols = filter (Dict.has first) given /\ length cols <= length given
  | _ => cols = firstn 8 (Dict.keys first) /\ length cols <= 8
  end.
Proof.
  intros cols. subst cols. split.
  - destruct columns as [[|c given]|]; unfold table_columns.
    + apply Forall_firstn_of, Forall_forall. intros k. apply dict_has_key.
    + apply Forall_forall. intros k Hk. now apply filter_In in Hk.
    + apply Forall_firstn_of, Forall_forall. intros k. apply dict_has_key.
  - destruct columns as [[|c given]|]; unfold table_columns;
      (split; [reflexivity|]);
      try apply firstn_le_length.
    apply filter_length_le.
Qed.

(** X7: A header label of at most 40 characters is shown in full, padded
    to its column; a longer one is cut to 40.  Values of the first 50
    records that have at most 40 characters are shown in full too. *)
Theorem table_shows_short_texts_in_full (first : Row) (rest : list Row)
        (columns : option (list str)) :
  let data := first :: rest in
  let cols := table_columns first columns in
  let widths := compute_widths fr cr data cols in
  (exists header,
      header_cells widths cols = Ok header /\
      Forall2 (fun col label =>
                 (length col <= 40 ->
                  exists w, Dict.get widths col = Some w /\
                            label = col ++ repeat 32%N (w - length col)) /\
                 (40 < length col -> label = Str.prefix 40 col))
              cols header) /\
  Forall (fun row =>
            exists cells,
              row_cells fr cr widths cols row = Ok cells /\
              Forall2 (fun col cell =>
                         length (cell_text fr cr row col) <= 40 ->
                         exists w,
                           Dict.get widths col = Some w /\
                           cell = cell_text fr cr row col ++
                                  repeat 32%N
                                    (w - length (cell_text fr cr row col)))
                      cols cells)
         (firstn 50 data).
Proof.
  intros data cols widths.
  assert (Hw : Forall (fun col => Dict.get widths col =
                                  Some (spec_width fr cr data col)) cols).
  { eapply Forall_impl; [|apply (widths_lookup fr cr data cols)].
    intros col H. unfold getitem in H. fold widths in H.
    destruct (Dict.get widths col); [|discriminate]. now injection H as ->. }
  split.
  - eexists. split; [apply header_cells_spec|].
    clearbody widths. revert Hw. generalize cols as l.
    induction 1 as [|col l Hcol Hl IH]; cbn [List.map]; constructor;
      [|exact IH].
    split.
    + intros Hlen. exists (spec_width fr cr data col). split; [exact Hcol|].
      assert (length col <= spec_width fr cr data col)
        by (unfold spec_width; lia).
      unfold Str.prefix, Str.ljust.
      apply firstn_all2. rewrite length_app, repeat_length. lia.
    + intros Hlen.
      assert (E : spec_width fr cr data col = 40) by (unfold spec_width; lia).
      rewrite E. unfold Str.prefix, Str.ljust.
      rewrite firstn_app. replace (40 - length col) with 0 by lia.
      cbn [firstn]. now rewrite app_nil_r.
  - apply Forall_forall. intros row Hrow.
    eexists. split; [apply row_cells_spec|].
    clearbody widths. revert Hw. generalize cols as l.
    induction 1 as [|col l Hcol Hl IH]; cbn [List.map]; constructor;
      [|exact IH].
    intros Hlen. exists (spec_width fr cr data col). split; [exact Hcol|].
    assert (length (cell_text fr cr row col) <= spec_width fr cr data col).
    { unfold spec_width.
      assert (length (cell_text fr cr row col) <=
              list_max (sampled_lengths fr cr data col)); [|lia].
      apply list_max_In. unfold sampled_lengths.
      apply in_map_iff. exists row. split; [|exact Hrow].
      unfold Str.prefix. now rewrite firstn_all2. }
    unfold fit, Str.ljust, Str.prefix. now rewrite firstn_all2.
Qed.

End TableMore.

(** Two records with two columns. *)
Lemma table_lines_equal_length_witness :
  let first : Row := [(lit "id", PyInt 1); (lit "name", PyStr (lit "Ann"))] in
  let rest : list Row :=
    [[(lit "id", PyInt 22); (lit "name", PyStr (lit "Bo"))]] in
  exists text,
    format_table (fun _ => []) (fun _ => []) (first :: rest) None = Ok text /\
    length (split 10%N text) = 4 /\
    Forall (fun line => length line = 9) (split 10%N text).
Proof.
  intros first rest.
  apply (@table_lines_equal_length (fun _ => []) (fun _ => []) first rest
           None);
    repeat constructor.
Defined.

(** A one-column table whose label is shorter than its values. *)
Lemma table_shows_short_texts_in_full_witness :
  let first : Row := [(lit "id", PyStr (lit "A-100"))] in
  let widths :=
    compute_widths (fun _ => []) (fun _ => []) [first] [lit "id"] in
  exists w label,
    Dict.get widths (lit "id") = Some w /\
    header_cells widths [lit "id"] = Ok [label] /\
    label = lit "id" ++ repeat 32%N (w - 2).
Proof.
  intros first widths.
  destruct (table_shows_short_texts_in_full (fun _ => []) (fun _ => [])
              first [] None) as [(header & Hheader & Hlabels) _].
  change (table_columns first None) with [lit "id"] in Hheader, Hlabels.
  fold widths in Hheader, Hlabels.
  inversion Hlabels as [|col label cols labels [Hshort _] Hrest]; subst.
  inversion Hrest; subst.
  destruct Hshort as (w & Hw & Hlabel).
  - vm_compute. lia.
  - exists w, label. repeat split; assumption.
Defined.

(** ** More on CSV *)

Lemma read_record_quoted text :
  forall field fields tail,
    tail = [] \/ (exists more, tail = 44%N :: more) ->
    read_record InQuotedField field fields
                (Str.replace 34%N [34%N; 34%N] text ++ 34%N :: tail) =
    after_value (fields ++ [field ++ text]) tail.
Proof.
  unfold Str.replace.
  induction text as [|x text IH]; intros field fields tail Htail.
  - cbn [flat_map app read_record N.eqb Pos.eqb]. rewrite app_nil_r.
    destruct Htail as [->|(more & ->)]; reflexivity.
  - cbn [flat_map]. destruct (N.eqb x 34) eqn:E.
    + apply N.eqb_eq in E; subst x.
      cbn [app read_record N.eqb Pos.eqb]. rewrite IH by exact Htail.
      now rewrite <- app_assoc.
    + cbn [app read_record]. rewrite E, IH by exact Htail.
      now rewrite <- app_assoc.
Qed.

Lemma read_record_plain text :
  forall field fields tail,
    needs_quotes text = false ->
    Str.contains 13%N text = false ->
    tail = [] \/ (exists more, tail = 44%N :: more) ->
    read_record InField field fields (text ++ tail) =
    after_value (fields ++ [field ++ text]) tail.
Proof.
  induction text as [|x text IH]; intros field fields tail Hq Hcr Htail.
  - cbn [app]. rewrite app_nil_r.
    destruct Htail as [->|(more & ->)]; reflexivity.
  - unfold needs_quotes, Str.contains in Hq, Hcr. cbn [existsb] in Hq, Hcr.
    apply orb_false_elim in Hcr as [Hx13 Hcr].
    apply orb_false_elim in Hq as [Hq Hnl].
    apply orb_false_elim in Hq as [Hcomma Hquote].
    apply orb_false_elim in Hnl as [Hx10 Hnl].
    apply orb_false_elim in Hcomma as [Hx44 Hcomma].
    apply orb_false_elim in Hquote as [_ Hquote].
    rewrite N.eqb_sym in Hx13, Hx10, Hx44.
    cbn [app read_record]. unfold ends_record. rewrite Hx44, Hx10, Hx13.
    cbn [orb]. rewrite IH; [now rewrite <- app_assoc| |exact Hcr|exact Htail].
    unfold needs_quotes, Str.contains. now rewrite Hcomma, Hquote, Hnl.
Qed.

(** Reading one value of a line and going on with what follows. *)
Lemma read_record_value text fields tail :
  csv_safe text = true ->
  tail = [] \/ (exists more, tail = 44%N :: more) ->
  read_record StartField [] fields (csv_value text ++ tail) =
  after_value (fields ++ [text]) tail.
Proof.
  intros Hsafe Htail. rewrite csv_value_spec. unfold csv_safe in Hsafe.
  destruct (needs_quotes text) eqn:Hq.
  - rewrite <- !app_assoc. cbn [app read_record N.eqb Pos.eqb].
    now rewrite read_record_quoted.
  - cbn [orb] in Hsafe. apply negb_true_iff in Hsafe.
    destruct text as [|x text].
    + cbn [app]. destruct Htail as [->|(more & ->)]; reflexivity.
    + pose proof Hq as Hq'. pose proof Hsafe as Hcr'.
      unfold needs_quotes, Str.contains in Hq, Hsafe.
      cbn [existsb] in Hq, Hsafe.
      apply orb_false_elim in Hsafe as [Hx13 _].
      apply orb_false_elim in Hq as [Hq Hnl].
      apply orb_false_elim in Hq as [Hcomma Hquote].
      apply orb_false_elim in Hnl as [Hx10 _].
      apply orb_false_elim in Hcomma as [Hx44 _].
      apply orb_false_elim in Hquote as [Hx34 _].
      rewrite N.eqb_sym in Hx13, Hx10, Hx44, Hx34.
      cbn [app read_record]. unfold ends_record.
      rewrite Hx34, Hx44, Hx10, Hx13. cbn [orb app].
      change (x :: text ++ tail) with ([x] ++ text ++ tail).
      assert (Hq2 : needs_quotes text = false).
      { unfold needs_quotes, Str.contains in *. cbn [existsb] in Hq'.
        apply orb_false_elim in Hq' as [Hq' Hnl].
        apply orb_false_elim in Hq' as [Hcomma Hquote].
        apply orb_false_elim in Hnl as [_ Hnl].
        apply orb_false_elim in Hcomma as [_ Hcomma].
        apply orb_false_elim in Hquote as [_ Hquote].
        now rewrite Hcomma, Hquote, Hnl. }
      assert (Hcr2 : Str.contains 13%N text = false).
      { unfold Str.contains in *. cbn [existsb] in Hcr'.
        now apply orb_false_elim in Hcr' as [_ Hcr']. }
      cbn [app].
      now rewrite (read_record_plain text [x] fields Hq2 Hcr2 Htail).
Qed.

Lemma read_record_values values :
  values <> [] ->
  Forall (fun v => csv_safe v = true) values ->
  forall fields,
    read_record StartField [] fields
                (Str.join (lit ",") (List.map csv_value values)) =
    (fields ++ values, []).
Proof.
  induction values as [|v values IH]; [contradiction|].
  intros _ Hall fields. inversion Hall as [|? ? Hv Hrest]; subst.
  destruct values as [|v' values].
  - cbn [List.map Str.join].
    rewrite <- (app_nil_r (csv_value v)).
    rewrite read_record_value by (auto). reflexivity.
  - cbn [List.map]. rewrite join_cons by discriminate.
    change (lit "," ++ ?x) with (44%N :: x).
    rewrite read_record_value by (eauto).
    cbn [after_value]. rewrite IH by (auto; discriminate).
    now rewrite <- app_assoc.
Qed.

Section CsvMore.

Variable fr : spec_float -> str.
Variable cr : pyval -> str.

(** X8: A data line of the CSV text reads back, under a standard CSV
    reader, to the stringified values of the record, one per column,
    whenever every value is enclosed in quotes or free of carriage
    returns, and the line is not the empty line of a single empty
    value. *)
Theorem csv_line_reads_back (cols : list str) (row : Row)
        (Hsafe : Forall (fun col => csv_safe (cell_text fr cr row col) = true)
                        cols)
        (Hline : List.map (cell_text fr cr row) cols <> [[]]) :
  parse_record (csv_line fr cr cols row) =
  (List.map (cell_text fr cr row) cols, []).
Proof.
  unfold csv_line.
  rewrite <- (map_map (cell_text fr cr row) csv_value).
  assert (Hall : Forall (fun v => csv_safe v = true)
                        (List.map (cell_text fr cr row) cols)).
  { apply Forall_forall. intros v Hv.
    apply in_map_iff in Hv as (col & <- & Hcol).
    rewrite Forall_forall in Hsafe. now apply Hsafe. }
  revert Hall Hline. generalize (List.map (cell_text fr cr row) cols).
  intros values Hall Hline.
  destruct values as [|v values]; [reflexivity|].
  pose proof (read_record_values (values := v :: values)
                ltac:(discriminate) Hall []) as Hread.
  cbn [app] in Hread.
  unfold parse_record.
  destruct (Str.join (lit ",") (List.map csv_value (v :: values)))
    as [|c line] eqn:Eline.
  - exfalso. inversion Hall as [|? ? Hv _]; subst.
    destruct values as [|v' values].
    + cbn [List.map Str.join] in Eline. rewrite csv_value_spec in Eline.
      destruct (needs_quotes v); [discriminate Eline|].
      subst v. now apply Hline.
    + cbn [List.map] in Eline. rewrite join_cons in Eline by discriminate.
      apply app_eq_nil in Eline as [_ Eline]. discriminate Eline.
  - destruct (ends_record c) eqn:Ec; [|exact Hread].
    exfalso. inversion Hall as [|? ? Hv _]; subst.
    assert (Hhead : exists tail, csv_value v ++ tail = c :: line).
    { destruct values as [|v' values].
      - exists []. now rewrite app_nil_r.
      - cbn [List.map] in Eline. rewrite join_cons in Eline by discriminate.
        eauto. }
    destruct Hhead as (tail & Hhead).
    rewrite csv_value_spec in Hhead. unfold csv_safe in Hv.
    destruct (needs_quotes v) eqn:Hq.
    + cbn [app] in Hhead. injection Hhead as <- _. discriminate Ec.
    + cbn [orb] in Hv. apply negb_true_iff in Hv.
      destruct v as [|x v].
      * destruct values as [|v' values]; [now apply Hline|].
        cbn [List.map] in Eline. rewrite join_cons in Eline by discriminate.
        rewrite csv_value_spec in Eline. cbn [needs_quotes] in Eline.
        injection Eline as <- _. discriminate Ec.
      * cbn [app] in Hhead. injection Hhead as <- _.
        unfold needs_quotes, Str.contains in Hq, Hv. cbn [existsb] in Hq, Hv.
        apply orb_false_elim in Hv as [Hx13 _].
        apply orb_false_elim in Hq as [_ Hnl].
        apply orb_false_elim in Hnl as [Hx10 _].
        unfold ends_record in Ec.
        rewrite N.eqb_sym in Hx13, Hx10. rewrite Hx10, Hx13 in Ec.
        discriminate Ec.
Qed.

(** X9: Fields that the columns do not name never reach the output: two
    records that agree on the columns give the same CSV line and the
    same table cells. *)
Theorem rendering_ignores_other_keys (widths : dict nat) (cols : list str)
        (row row' : Row)
        (Hagree : forall col, In col cols ->
                              Dict.get row col = Dict.get row' col) :
  csv_line fr cr cols row = csv_line fr cr cols row' /\
  row_cells fr cr widths cols row = row_cells fr cr widths cols row'.
Proof.
  assert (Htext : forall col,
             In col cols ->
             cell_text fr cr row col = cell_text fr cr row' col).
  { intros col Hcol. unfold cell_text, Dict.get_default.
    now rewrite (Hagree col Hcol). }
  split.
  - unfold csv_line. f_equal. apply map_ext_in. intros col Hcol.
    now rewrite Htext.
  - unfold row_cells. clear Hagree.
    induction cols as [|col cols IH]; [reflexivity|].
    cbn [mapM]. rewrite Htext by now left.
    rewrite IH; [reflexivity|]. intros c Hc. apply Htext. now right.
Qed.

End CsvMore.

(** A record with a quoted value, a plain one and a null. *)
Lemma csv_line_reads_back_witness :
  let row : Row := [ (lit "vendor", PyStr (lit "MASON, W. B"));
                     (lit "amount", PyInt 12);
                     (lit "fund", PyNone) ] in
  let cols := [lit "vendor"; lit "amount"; lit "fund"; lit "date"] in
  parse_record (csv_line (fun _ => []) (fun _ => []) cols row) =
  ([lit "MASON, W. B"; lit "12"; lit "None"; []], []).
Proof.
  intros row cols.
  apply (@csv_line_reads_back (fun _ => []) (fun _ => []) cols row).
  - repeat constructor.
  - discriminate.
Defined.

(** A later record with a key the first record lacks. *)
Lemma rendering_ignores_other_keys_witness :
  let row : Row := [(lit "a", PyInt 1); (lit "extra", PyInt 2)] in
  let row' : Row := [(lit "a", PyInt 1)] in
  csv_line (fun _ => []) (fun _ => []) [lit "a"] row =
  csv_line (fun _ => []) (fun _ => []) [lit "a"] row' /\
  row_cells (fun _ => []) (fun _ => []) [(lit "a", 3)] [lit "a"] row =
  row_cells (fun _ => []) (fun _ => []) [(lit "a", 3)] [lit "a"] row'.
Proof.
  intros row row'.
  apply (@rendering_ignores_other_keys (fun _ => []) (fun _ => [])
           [(lit "a", 3)] [lit "a"] row row').
  intros col [<-|[]]. reflexivity.
Defined.

(** ** More on the writer *)

Section WriterMore.

Variable fr : spec_float -> str.
Variable cr : pyval -> str.
Variable ua : char -> bool.
Variable json_dumps : pyval -> str.
Variable urlencode : dict str -> str.
Variable ts : str.
Variable iso : str.
Variable fs : str -> str -> option write_failure.

Lemma snapshot_name_command c :
  snapshot_name fr cr ua ts (namespace_of c) = Ok (snapshot_file ua ts c).
Proof.
  unfold snapshot_file, snapshot_parts, year_part, cleaned_values.
  destruct c as [[[l o fm out s so u sj] y d v f mn mx]
                |[[l o fm out s so u sj] y d n mn mx]
                |[l o fm out s so u sj]|[l o fm out s so u sj]].
  - cbn [sp_year sp_vendor sp_fund sp_dept sp_common search].
    destruct y as [[|? ?]|], v as [[|? ?]|], f as [[|? ?]|],
      d as [[|? ?]|], s as [[|? ?]|]; reflexivity.
  - cbn [pr_year pr_dept pr_name pr_common search].
    destruct y as [[|?|?]|], d as [[|? ?]|], n as [[|? ?]|],
      s as [[|? ?]|]; reflexivity.
  - cbn [search]. destruct s as [[|? ?]|]; reflexivity.
  - cbn [search]. destruct s as [[|? ?]|]; reflexivity.
Qed.

Lemma namespace_save_json c :
  has_truthy (namespace_of c) (lit "save_json") = save_json (common_of c).
Proof.
  destruct c as [[[l o fm out s so u sj] ? ? ? ? ? ?]
                |[[l o fm out s so u sj] ? ? ? ? ?]
                |[l o fm out s so u sj]|[l o fm out s so u sj]];
    reflexivity.
Qed.

Lemma namespace_url c :
  has_truthy (namespace_of c) (lit "url") = url (common_of c).
Proof.
  destruct c as [[[l o fm out s so u sj] ? ? ? ? ? ?]
                |[[l o fm out s so u sj] ? ? ? ? ?]
                |[l o fm out s so u sj]|[l o fm out s so u sj]];
    reflexivity.
Qed.

Lemma namespace_format c :
  getattr (namespace_of c) (lit "format") =
  Ok (PyStr (format_name (format (common_of c)))).
Proof.
  destruct c as [[[l o fm out s so u sj] ? ? ? ? ? ?]
                |[[l o fm out s so u sj] ? ? ? ? ?]
                |[l o fm out s so u sj]|[l o fm out s so u sj]];
    reflexivity.
Qed.

Lemma namespace_output c :
  getattr (namespace_of c) (lit "output") =
  Ok (opt PyStr (output (common_of c))).
Proof.
  destruct c as [[[l o fm out s so u sj] ? ? ? ? ? ?]
                |[[l o fm out s so u sj] ? ? ? ? ?]
                |[l o fm out s so u sj]|[l o fm out s so u sj]];
    reflexivity.
Qed.

(** Rendering never fails. *)
Lemma rendered_total c data :
  exists text, rendered fr cr json_dumps c data = Ok text.
Proof.
  unfold rendered. destruct (format (common_of c)); eauto.
  destruct data as [|first rest]; [now eexists|].
  eexists. apply format_table_spec.
Qed.

(** The writer on the namespace of a command: snapshot, output, and
    the URL line when a URL was handed over; a write that fails ends
    it. *)
Lemma output_results_trace c first rest text url_text dataset_id params :
  let data := first :: rest in
  let content :=
    json_dumps (wrapped_data fr cr urlencode iso data dataset_id params) in
  let snapshot :=
    if save_json (common_of c) then
      [ FileWritten (snapshot_file ua ts c) content;
        Printed (lit "JSON saved to " ++ snapshot_file ua ts c) ]
    else [] in
  let url_line :=
    if url (common_of c) && truthy url_text then
      [Printed ([10%N] ++ lit "View in browser: " ++ py_str fr cr url_text)]
    else [] in
  rendered fr cr json_dumps c data = Ok text ->
  run (output_results fr cr ua json_dumps urlencode ts iso fs data
                      (namespace_of c) (default_cols_of c) url_text
                      dataset_id params) =
  match
    if save_json (common_of c) then fs (snapshot_file ua ts c) content
    else None
  with
  | Some failure => ([], Raise (write_exn (snapshot_file ua ts c) failure))
  | None =>
      match nonempty (output (common_of c)) with
      | Some path =>
          match fs path text with
          | None => (snapshot ++ output_events c data text ++ url_line, Ok tt)
          | Some failure => (snapshot, Raise (write_exn path failure))
          end
      | None => (snapshot ++ output_events c data text ++ url_line, Ok tt)
      end
  end.
Proof.
  intros data content snapshot url_line Htext. unfold run, output_results.
  subst data content snapshot url_line.
  unfold seq at 1. rewrite namespace_save_json.
  unfold rendered in Htext. unfold output_events.
  unfold seq, lift, ret, print, write_text, emit.
  rewrite snapshot_name_command, namespace_format, namespace_output,
    namespace_url.
  destruct (save_json (common_of c)), (format (common_of c));
    cbn [format_name eq_str andb negb];
    try rewrite Htext;
    try (injection Htext as <-);
    try destruct (fs (snapshot_file ua ts c) _) as [failure|];
    try reflexivity;
    repeat match goal with
           | |- context [Str.eqb (lit ?a) (lit ?b)] =>
               let v := eval vm_compute in (Str.eqb (lit a) (lit b)) in
               change (Str.eqb (lit a) (lit b)) with v
           end;
    cbv beta iota;
    destruct (output (common_of c)) as [[|? ?]|];
    cbn [opt truthy as_str nonempty];
    try match goal with
        | |- context [fs (?x :: ?l) ?t] => destruct (fs (x :: l) t)
        end;
    destruct (url (common_of c)), (truthy url_text); reflexivity.
Qed.

Lemma shown_url_truthy dataset_id params :
  truthy (PyStr (generate_socrata_url urlencode dataset_id params)) = true.
Proof.
  unfold generate_socrata_url.
  destruct params; [reflexivity|].
  destruct (without_limit _); reflexivity.
Qed.

(** A whole run on a non-empty result set. *)
Lemma run_command_trace c first rest text :
  let data := first :: rest in
  rendered fr cr json_dumps c data = Ok text ->
  run (run_command fr cr ua json_dumps urlencode ts iso fs c data) =
  expected_run fr cr ua json_dumps urlencode ts iso fs c data text.
Proof.
  intros data Htext. unfold run_command, run.
  unfold seq at 1. unfold lift at 1. rewrite command_params_spec.
  pose proof (fun u d p =>
                output_results_trace c first rest u d p Htext) as H.
  unfold run in H. fold data in H. cbv zeta in H.
  unfold expected_run, snapshot_failure, snapshot_events, snapshot_text,
    snapshot_wrapper, url_events.
  rewrite namespace_url.
  destruct c; rewrite H; cbn [common_of].
  - destruct (url _); cbn [andb]; rewrite ?shown_url_truthy; reflexivity.
  - destruct (url _); cbn [andb]; rewrite ?shown_url_truthy; reflexivity.
  - cbn [truthy]. now rewrite andb_false_r.
  - cbn [truthy]. now rewrite andb_false_r.
Qed.

(** X10: no run of a data command ends in an [AttributeError], a
    [KeyError] or a [TypeError], whatever was fetched and whatever
    becomes of the writes: every attribute read is there, every
    value cleaned or used as a path is a string, and every width
    looked up was stored. *)
Theorem run_command_reads_are_safe (c : Command) (data : list Row) :
  match snd (run (run_command fr cr ua json_dumps urlencode ts iso fs
                              c data)) with
  | Raise (AttributeError _) | Raise (KeyError _) | Raise TypeError => False
  | _ => True
  end.
Proof.
  destruct data as [|first rest].
  - unfold run, run_command, seq, lift. rewrite command_params_spec.
    now destruct c.
  - destruct (rendered_total c (first :: rest)) as (text & Htext).
    rewrite (run_command_trace c first rest Htext). unfold expected_run.
    destruct (snapshot_failure _ _ _ _ _ _ _ _ _ _) as [[|]|]; try exact I.
    destruct (nonempty (output (common_of c))) as [path|]; [|exact I].
    destruct (fs path text) as [[|]|]; exact I.
Qed.




(** X14: [--url] does nothing on settlements and revenue: no URL is handed
    to the writer there. *)
Theorem url_flag_ignored_by_reduced_commands (a : CommonArgs)
        (data : list Row) (flag : bool) :
  run (run_command fr cr ua json_dumps urlencode ts iso fs
                   (Settlements (set_url flag a)) data) =
  run (run_command fr cr ua json_dumps urlencode ts iso fs
                   (Settlements a) data) /\
  run (run_command fr cr ua json_dumps urlencode ts iso fs
                   (Revenue (set_url flag a)) data) =
  run (run_command fr cr ua json_dumps urlencode ts iso fs
                   (Revenue a) data).
Proof.
  destruct data as [|first rest].
  - destruct a as [l o fm out s so u sj].
    split; unfold run, run_command, seq, lift;
      rewrite !command_params_spec; reflexivity.
  - split.
    + destruct (rendered_total (Settlements a) (first :: rest))
        as (text & Htext).
      rewrite (run_command_trace (Settlements a) first rest Htext).
      rewrite (run_command_trace (Settlements (set_url flag a)) first rest
                 (text := text)) by exact Htext.
      reflexivity.
    + destruct (rendered_total (Revenue a) (first :: rest))
        as (text & Htext).
      rewrite (run_command_trace (Revenue a) first rest Htext).
      rewrite (run_command_trace (Revenue (set_url flag a)) first rest
                 (text := text)) by exact Htext.
      reflexivity.
Qed.

End WriterMore.

Lemma lstrip_same_length c s :
  length (Str.lstrip c s) = length s -> Str.lstrip c s = s.
Proof.
  destruct s as [|x s]; [reflexivity|]. cbn [Str.lstrip].
  destruct (N.eqb x c); [|reflexivity].
  pose proof (lstrip_length c s). cbn [length]. lia.
Qed.

Lemma rstrip_length c s : length (Str.rstrip c s) <= length s.
Proof.
  unfold Str.rstrip. rewrite length_rev.
  etransitivity; [apply lstrip_length|]. now rewrite length_rev.
Qed.

Lemma Forall_not_contains (P : char -> bool) c s :
  P c = false -> Forall (fun x => P x = true) s -> Str.contains c s = false.
Proof.
  intros Hc. unfold Str.contains.
  induction 1 as [|x s Hx Hs IH]; [reflexivity|]. cbn [existsb].
  rewrite IH, orb_false_r. destruct (N.eqb c x) eqn:E; [|reflexivity].
  apply N.eqb_eq in E; subst x. congruence.
Qed.

Section SnapshotMore.

Variable fr : spec_float -> str.
Variable cr : pyval -> str.
Variable ua : char -> bool.
Variable json_dumps : pyval -> str.
Variable urlencode : dict str -> str.
Variable ts : str.
Variable iso : str.
Variable fs : str -> str -> option write_failure.

(** X15: A cleaned value is safe in a file name: at most 20 characters,
    all of them letters, digits or underscores, so no path separator
    and no dot, and no underscore at either end. *)
Theorem sanitize_is_safe (s : str) :
  let t := sanitize ua s in
  length t <= 20 /\
  Forall (fun c => is_word ua c = true) t /\
  Str.contains 47%N t = false /\
  Str.contains 92%N t = false /\
  Str.contains 46%N t = false /\
  Str.lstrip 95%N t = t /\
  Str.rstrip 95%N t = t.
Proof.
  intros t.
  assert (Hlen : length t <= 20).
  { unfold t, sanitize.
    etransitivity; [apply strip_length|]. apply firstn_le_length. }
  assert (Hword : Forall (fun c => is_word ua c = true) t).
  { unfold t, sanitize. apply strip_Forall, prefix_Forall.
    unfold sub_nonword. apply Forall_forall. intros c Hc.
    apply in_map_iff in Hc as (x & <- & _).
    destruct (is_word ua x) eqn:E; [exact E|reflexivity]. }
  assert (Hidem : Str.strip 95%N t = t) by apply strip_idem.
  assert (Hl : Str.lstrip 95%N t = t).
  { apply lstrip_same_length.
    pose proof (lstrip_length 95%N t).
    pose proof (rstrip_length 95%N (Str.lstrip 95%N t)) as Hr.
    unfold Str.strip in Hidem. rewrite Hidem in Hr. lia. }
  repeat split; try assumption.
  - now apply (Forall_not_contains (is_word ua)).
  - now apply (Forall_not_contains (is_word ua)).
  - now apply (Forall_not_contains (is_word ua)).
  - unfold Str.strip in Hidem. now rewrite Hl in Hidem.
Qed.


(** X17: The address shown by [--url] and the one saved in a snapshot are
    built alike and never carry [$limit]; for a command that is all
    of its parameters but the first. *)
Theorem shown_url_without_limit (dataset_id : str) (params : dict str)
        (data : list Row) (c : Command) :
  generate_socrata_url urlencode dataset_id params =
    api_url_of urlencode dataset_id params ++ [10%N] ++
    lit "               Portal: https://cthru.data.socrata.com/d/" ++
    dataset_id /\
  (exists others,
      wrapped_data fr cr urlencode iso data (PyStr dataset_id) (Some params) =
      PyDict ((lit "api_url", PyStr (api_url_of urlencode dataset_id params))
              :: others)) /\
  Dict.get (without_limit params) (lit "$limit") = None /\
  without_limit (remote_params fr c) = tl (remote_params fr c).
Proof.
  repeat split.
  - unfold generate_socrata_url, api_url_of.
    destruct params as [|kv params].
    + cbn [without_limit filter]. now rewrite <- !app_assoc.
    + destruct (without_limit (kv :: params)); now rewrite <- !app_assoc.
  - unfold wrapped_data, api_url_of. cbn [py_str].
    destruct params as [|kv params].
    + cbn [without_limit filter]. rewrite app_nil_r. now eexists.
    + destruct (without_limit (kv :: params)).
      * rewrite app_nil_r. now eexists.
      * rewrite <- !app_assoc. now eexists.
  - unfold without_limit.
    induction params as [|[k v] params IH]; [reflexivity|].
    cbn [filter fst]. destruct (Str.eqb k (lit "$limit")) eqn:E; cbn [negb].
    + exact IH.
    + cbn [Dict.get]. now rewrite E.
  - unfold remote_params, entry.
    destruct (offset_param c), c;
      try destruct (where_param fr _);
      try destruct (nonempty (sort _));
      try destruct (nonempty (search _)); reflexivity.
Qed.




End SnapshotMore.




(** ** Credentials *)

Section CredentialsFacts.

Variable us : char -> bool.

Lemma lstrip_ws_Forall (P : char -> Prop) s :
  Forall P s -> Forall P (lstrip_ws us s).
Proof.
  induction 1 as [|x s Hx Hs IH]; cbn [lstrip_ws]; [constructor|].
  destruct (is_space us x); [exact IH|now constructor].
Qed.

Lemma lstrip_ws_idem s : lstrip_ws us (lstrip_ws us s) = lstrip_ws us s.
Proof.
  induction s as [|x s IH]; [reflexivity|]. cbn [lstrip_ws].
  destruct (is_space us x) eqn:E; [exact IH|]. cbn [lstrip_ws]. now rewrite E.
Qed.

Lemma lstrip_ws_snoc s x :
  is_space us x = false -> lstrip_ws us (s ++ [x]) = lstrip_ws us s ++ [x].
Proof.
  intros Hx. induction s as [|y s IH]; cbn [app lstrip_ws]; [now rewrite Hx|].
  now destruct (is_space us y).
Qed.

Lemma lstrip_ws_head s :
  lstrip_ws us s = [] \/
  exists x s', lstrip_ws us s = x :: s' /\ is_space us x = false.
Proof.
  induction s as [|x s IH]; cbn [lstrip_ws]; [now left|].
  destruct (is_space us x) eqn:E; [exact IH|]. right. now exists x, s.
Qed.

Lemma strip_ws_Forall (P : char -> Prop) s :
  Forall P s -> Forall P (strip_ws us s).
Proof.
  intros H. unfold strip_ws.
  apply Forall_rev, lstrip_ws_Forall, Forall_rev, lstrip_ws_Forall, H.
Qed.

(** Stripping twice is stripping once. *)
Lemma strip_ws_idem s : strip_ws us (strip_ws us s) = strip_ws us s.
Proof.
  unfold strip_ws.
  destruct (lstrip_ws_head s) as [E|(x & t & E & Hx)]; rewrite E.
  - reflexivity.
  - cbn [rev]. rewrite lstrip_ws_snoc by exact Hx.
    rewrite rev_app_distr. cbn [rev app lstrip_ws]. rewrite Hx.
    change (x :: rev (lstrip_ws us (rev t)))
      with (rev [x] ++ rev (lstrip_ws us (rev t))).
    rewrite <- rev_app_distr, rev_involutive.
    rewrite lstrip_ws_snoc by exact Hx.
    now rewrite lstrip_ws_idem.
Qed.

(** A text without white space is left alone. *)
Lemma strip_ws_clean s :
  Forall (fun c => is_space us c = false) s -> strip_ws us s = s.
Proof.
  intros H. unfold strip_ws.
  assert (Hl : forall t, Forall (fun c => is_space us c = false) t ->
                         lstrip_ws us t = t).
  { intros t Ht. destruct Ht as [|x t Hx Ht]; [reflexivity|].
    cbn [lstrip_ws]. now rewrite Hx. }
  rewrite (Hl s H), (Hl (rev s)) by now apply Forall_rev.
  apply rev_involutive.
Qed.

(** Stripping leaves a text alone when neither end is white space. *)
Lemma strip_ws_ends x middle y :
  is_space us x = false -> is_space us y = false ->
  strip_ws us (x :: middle ++ [y]) = x :: middle ++ [y].
Proof.
  intros Hx Hy. unfold strip_ws. cbn [lstrip_ws]. rewrite Hx.
  cbn [rev]. rewrite rev_app_distr. cbn [rev app lstrip_ws]. rewrite Hy.
  cbn [rev]. rewrite rev_app_distr, rev_involutive. reflexivity.
Qed.

(** No piece of a split holds the separator. *)
Lemma split_pieces sep s :
  Forall (fun piece => Str.contains sep piece = false) (split sep s).
Proof.
  induction s as [|x s IH]; cbn [split]; [repeat constructor|].
  destruct (N.eqb x sep) eqn:E; [now constructor|].
  destruct (split sep s) as [|piece pieces]; [repeat constructor|].
  - unfold Str.contains. cbn [existsb]. now rewrite N.eqb_sym, E.
  - inversion IH as [|? ? Hp Hps]; subst. constructor; [|exact Hps].
    unfold Str.contains in *. cbn [existsb]. now rewrite N.eqb_sym, E, Hp.
Qed.

Lemma after_first_contains sep c s value :
  after_first sep s = Some value ->
  Str.contains c s = false -> Str.contains c value = false.
Proof.
  unfold Str.contains.
  induction s as [|x s IH]; cbn [after_first existsb]; [discriminate|].
  intros H Hc. apply orb_false_elim in Hc as [_ Hc].
  destruct (N.eqb x sep); [now injection H as <-|auto].
Qed.

Lemma strip_ws_contains c s :
  Str.contains c s = false -> Str.contains c (strip_ws us s) = false.
Proof.
  intros H.
  assert (HF : Forall (fun x => N.eqb c x = false) s).
  { unfold Str.contains in H. induction s as [|x s IH]; [constructor|].
    cbn [existsb] in H. apply orb_false_elim in H as [Hx Hs].
    constructor; auto. }
  apply strip_ws_Forall in HF.
  unfold Str.contains.
  induction HF as [|x t Hx Ht IH]; [reflexivity|].
  cbn [existsb]. now rewrite Hx, IH.
Qed.

Lemma scan_lines_tidy lines :
  Forall (fun line => Str.contains 10%N line = false) lines ->
  forall app_token secret,
    tidy us app_token -> tidy us secret ->
    tidy us (fst (scan_lines us lines app_token secret)) /\
    tidy us (snd (scan_lines us lines app_token secret)).
Proof.
  induction 1 as [|line lines Hline Hlines IH]; intros a s Ha Hs;
    cbn [scan_lines]; [now split|].
  assert (Hvalue : forall value, after_first 58%N line = Some value ->
                                 tidy us (Some (strip_ws us value))).
  { intros value Hv. split; [apply strip_ws_idem|].
    apply strip_ws_contains. eapply after_first_contains; eauto. }
  destruct (startswith (lit "ID:") line).
  - destruct (after_first 58%N line) as [value|] eqn:Hv; [|now split].
    apply IH; auto.
  - destruct (startswith (lit "secret:") line); [|now apply IH].
    destruct (after_first 58%N line) as [value|] eqn:Hv; [|now split].
    apply IH; auto.
Qed.

Lemma lstrip_ws_spaces ws rest :
  Forall (fun c => is_space us c = true) ws ->
  lstrip_ws us (ws ++ rest) = lstrip_ws us rest.
Proof.
  induction 1 as [|c ws Hc Hws IH]; [reflexivity|].
  cbn [app lstrip_ws]. now rewrite Hc.
Qed.

(** White space after a text whose ends are not white space is all
    that stripping takes away. *)
Lemma strip_ws_trailing x middle y ws :
  is_space us x = false -> is_space us y = false ->
  Forall (fun c => is_space us c = true) ws ->
  strip_ws us (x :: middle ++ [y] ++ ws) = x :: middle ++ [y].
Proof.
  intros Hx Hy Hws. unfold strip_ws. cbn [lstrip_ws]. rewrite Hx.
  assert (E : x :: middle ++ [y] ++ ws = ((x :: middle) ++ [y]) ++ ws).
  { cbn [app]. now rewrite <- app_assoc. }
  rewrite E, rev_app_distr.
  rewrite lstrip_ws_spaces by now apply Forall_rev.
  rewrite rev_app_distr. cbn [rev app lstrip_ws]. rewrite Hy.
  cbn [rev]. rewrite rev_app_distr, rev_involutive. reflexivity.
Qed.

Lemma clean_no_newline s :
  Forall (fun c => is_space us c = false) s -> Str.contains 10%N s = false.
Proof.
  unfold Str.contains.
  induction 1 as [|c s Hc Hs IH]; [reflexivity|]. cbn [existsb].
  rewrite IH, orb_false_r. destruct (N.eqb 10 c) eqn:E; [|reflexivity].
  apply N.eqb_eq in E; subst c. discriminate Hc.
Qed.

(** X18: Whatever the file holds, a credential that comes out of it has
    no white space at either end and no line break inside. *)
Theorem credentials_are_tidy (file : token_file) :
  tidy us (fst (load_credentials us file)) /\
  tidy us (snd (load_credentials us file)).
Proof.
  destruct file as [| |content]; cbn [load_credentials fst snd tidy];
    try (split; exact I).
  apply scan_lines_tidy; try exact I. apply split_pieces.
Qed.

(** X19: A file of the documented form, an [ID:] line and a [secret:]
    line, gives back the two values written in it whenever they hold
    no white space. *)
Theorem credentials_round_trip (token secret : str)
        (Htoken : Forall (fun c => is_space us c = false) token)
        (Hsecret : Forall (fun c => is_space us c = false) secret) :
  load_credentials us
    (FileText (lit "ID: " ++ token ++ [10%N] ++ lit "secret: " ++ secret)) =
  (Some token, Some secret).
Proof.
  cbn [load_credentials].
  set (line1 := lit "ID: " ++ token).
  assert (Hstrip : exists tail,
             strip_ws us (lit "ID: " ++ token ++ [10%N] ++ lit "secret: " ++
                          secret) =
             line1 ++ 10%N :: lit "secret:" ++ tail /\
             Str.contains 10%N tail = false /\
             strip_ws us tail = secret).
  { destruct (rev secret) as [|y init] eqn:Erev.
    - apply (f_equal (@rev char)) in Erev. rewrite rev_involutive in Erev.
      cbn [rev] in Erev. subst secret.
      exists []. split; [|split; reflexivity].
      pose proof (@strip_ws_trailing 73%N
                    (lit "D: " ++ token ++ [10%N] ++ lit "secret")
                    58%N [32%N] eq_refl eq_refl) as H.
      rewrite <- !app_assoc in H. cbn [app] in H.
      subst line1. rewrite <- !app_assoc.
      etransitivity; [|etransitivity; [apply H|]];
        [reflexivity|repeat constructor|reflexivity].
    - apply (f_equal (@rev char)) in Erev. rewrite rev_involutive in Erev.
      cbn [rev] in Erev. 
      exists (32%N :: secret). split; [|split].
      + assert (Hy : is_space us y = false).
        { rewrite Forall_forall in Hsecret. apply Hsecret. rewrite Erev.
          apply in_or_app. right. now left. }
        pose proof (@strip_ws_trailing 73%N
                      (lit "D: " ++ token ++ [10%N] ++ lit "secret: " ++
                       rev init)
                      y [] eq_refl Hy (Forall_nil _)) as H.
        rewrite app_nil_r in H. rewrite <- !app_assoc in H.
        subst line1. rewrite <- !app_assoc. rewrite Erev.
        exact H.
      + unfold Str.contains. cbn [existsb].
        apply (clean_no_newline Hsecret).
      + unfold strip_ws. cbn [lstrip_ws].
        change (is_space us 32%N) with true. cbv iota.
        apply (strip_ws_clean Hsecret). }
  destruct Hstrip as (tail & -> & Htail & Hvalue).
  assert (Hline1 : Str.contains 10%N line1 = false).
  { unfold line1. rewrite contains_app. now rewrite (clean_no_newline Htoken). }
  rewrite split_at by exact Hline1.
  rewrite split_clean by (rewrite contains_app; now rewrite Htail).
  cbn [scan_lines].
  change (startswith (lit "ID:") line1) with true. cbv iota.
  change (after_first 58%N line1) with (Some (32%N :: token)). cbv iota.
  change (startswith (lit "ID:") (lit "secret:" ++ tail)) with false.
  change (startswith (lit "secret:") (lit "secret:" ++ tail)) with true.
  cbv iota.
  change (after_first 58%N (lit "secret:" ++ tail)) with (Some tail).
  cbv iota. rewrite Hvalue. f_equal. f_equal.
  unfold strip_ws. cbn [lstrip_ws]. change (is_space us 32%N) with true.
  cbv iota. apply (strip_ws_clean Htoken).
Qed.

End CredentialsFacts.

(** A file with a token and a secret. *)
Lemma credentials_round_trip_witness :
  load_credentials (fun _ => false)
    (FileText (lit "ID: " ++ lit "abc123" ++ [10%N] ++ lit "secret: " ++
               lit "s3cr3t")) =
  (Some (lit "abc123"), Some (lit "s3cr3t")).
Proof.
  apply (@credentials_round_trip (fun _ => false) (lit "abc123")
                                 (lit "s3cr3t"));
    repeat constructor.
Defined.

(** ** Transport *)

Section TransportFacts.

Variable fr : spec_float -> str.
Variable cr : pyval -> str.
Variable urlencode : dict str -> str.
Variable b64encode : str -> str.
Variable json_loads : str -> option pyval.

(** X20: The request always accepts JSON and carries at most one kind of
    credentials: Basic authorization of [token:secret] when both are
    there and not empty, the token header when only the token is, and
    nothing when the token is missing or empty, secret or not. *)
Theorem auth_modes_exclusive (app_token secret : option str) :
  let headers := request_headers fr cr b64encode app_token secret in
  Dict.get headers (lit "Accept") = Some (lit "application/json") /\
  Dict.get headers (lit "Authorization") =
    match nonempty app_token, nonempty secret with
    | Some t, Some s => Some (lit "Basic " ++ b64encode (t ++ lit ":" ++ s))
    | _, _ => None
    end /\
  Dict.get headers (lit "X-App-Token") =
    match nonempty app_token, nonempty secret with
    | Some t, None => Some t
    | _, _ => None
    end /\
  (Dict.has headers (lit "Authorization") &&
   Dict.has headers (lit "X-App-Token") = false) /\
  (nonempty app_token = None ->
   headers = [(lit "Accept", lit "application/json")]).
Proof.
  intros headers. subst headers.
  destruct app_token as [[|? ?]|], secret as [[|? ?]|];
    repeat split; try reflexivity; discriminate.
Qed.

(** X21: An HTTP error never yields data.  When the bytes of its
    body are not UTF-8, decoding them raises [UnicodeDecodeError]
    before anything is printed, and nobody catches it.  Otherwise the
    status text is the first [print] to standard error, at most one
    more [print] follows (its text is the server's, line breaks
    included), and the run ends with exit status 1, unless the body
    is JSON but not an object: then the lookup of [message] raises
    and nobody catches it.  A body that is not JSON is printed cut to
    200 characters. *)
Theorem http_error_ends_the_run (code : Z) (reason : str)
        (body : option body_bytes) :
  let status := lit "Error: HTTP " ++ Str.of_int code ++ lit " - " ++ reason in
  let outcome := fetch_reply fr cr json_loads (HTTPError code reason body) in
  let calls := fst outcome in
  let ending := snd outcome in
  (forall data, ending <> Fetched data) /\
  match body with
  | Some NotUtf8 => outcome = ([], Uncaught UnicodeDecodeError)
  | Some (Utf8 _) | None =>
      let error_body :=
        match body with
        | Some (Utf8 text) => text
        | _ => []
        end in
      (exists more, calls = status :: more /\ length more <= 1) /\
      (ending = Exit 1 \/
       ending = Uncaught (AttributeError (lit "get")) /\
       exists value, json_loads error_body = Some value /\
                     forall d, value <> PyDict d) /\
      (error_body <> [] -> json_loads error_body = None ->
       calls = [status; lit "  " ++ Str.prefix 200 error_body] /\
       length (lit "  " ++ Str.prefix 200 error_body) <= 202)
  end.
Proof.
  intros status outcome calls ending.
  assert (Htext : forall error_body,
    let outcome' :=
      match error_body with
      | [] => ([status], Exit 1)
      | _ :: _ =>
          match json_loads error_body with
          | Some (PyDict error_json) =>
              ([status] ++
               [lit "  " ++
                py_str fr cr
                  (Dict.get_default error_json (lit "message")
                                    (PyStr error_body))],
               Exit 1)
          | Some _ => ([status], Uncaught (AttributeError (lit "get")))
          | None =>
              ([status] ++ [lit "  " ++ Str.prefix 200 error_body], Exit 1)
          end
      end in
    (forall data, snd outcome' <> Fetched data) /\
    (exists more, fst outcome' = status :: more /\ length more <= 1) /\
    (snd outcome' = Exit 1 \/
     snd outcome' = Uncaught (AttributeError (lit "get")) /\
     exists value, json_loads error_body = Some value /\
                   forall d, value <> PyDict d) /\
    (error_body <> [] -> json_loads error_body = None ->
     fst outcome' = [status; lit "  " ++ Str.prefix 200 error_body] /\
     length (lit "  " ++ Str.prefix 200 error_body) <= 202)).
  { intros error_body. destruct error_body as [|c rest] eqn:Ebody.
    - cbv zeta. cbn [fst snd]. split; [discriminate|].
      split; [exists []; split; [reflexivity|cbn; lia]|].
      split; [now left|]. intros H. now contradiction H.
    - cbv zeta. destruct (json_loads (c :: rest)) as [value|] eqn:Ejson.
      + destruct value; cbn [fst snd];
          (split; [discriminate|]);
          (split; [eexists; split; [reflexivity|cbn; lia]|]);
          (split; [|intros _ H; discriminate H]);
          try (right; split; [reflexivity|];
               eexists; split; [reflexivity|]; intros d0; discriminate).
        now left.
      + cbn [fst snd app]. split; [discriminate|].
        split; [eexists; split; [reflexivity|cbn; lia]|].
        split; [now left|]. intros _ _. split; [reflexivity|].
        rewrite length_app, prefix_length.
        change (length (lit "  ")) with 2. lia. }
  subst calls ending outcome. unfold fetch_reply, decode. fold status.
  destruct body as [[|text]|].
  - split; [discriminate|reflexivity].
  - destruct (Htext text) as (H1 & H2). split; [exact H1|exact H2].
  - destruct (Htext []) as (H1 & H2). split; [exact H1|exact H2].
Qed.

End TransportFacts.

(** A token without a secret. *)
Lemma auth_modes_exclusive_witness :
  request_headers (fun _ => []) (fun _ => []) (fun s => s) None
                  (Some (lit "s3cr3t")) =
  [(lit "Accept", lit "application/json")].
Proof.
  apply (auth_modes_exclusive (fun _ => []) (fun _ => []) (fun s => s)
                              None (Some (lit "s3cr3t"))).
  reflexivity.
Defined.

(** A gateway error page. *)
Lemma http_error_ends_the_run_witness :
  fst (fetch_reply (fun _ => []) (fun _ => []) (fun _ => None)
                   (HTTPError 502 (lit "Bad Gateway")
                              (Some (Utf8 (lit "<html>upstream down</html>")))))
  = [ lit "Error: HTTP 502 - Bad Gateway";
      lit "  <html>upstream down</html>" ].
Proof.
  apply (http_error_ends_the_run (fun _ => []) (fun _ => []) (fun _ => None)
           502 (lit "Bad Gateway")
           (Some (Utf8 (lit "<html>upstream down</html>"))));
    [discriminate|reflexivity].
Defined.
